(** * Training / evaluation orchestration of [BaseBinaryClassifier]
    (src/cnn/model.py), shallow embedding.

    Python floats are modelled by [pyfloat]: a rational, +inf or nan.
    Losses, scores and targets are rationals. Tensors of one batch are
    flattened to [list Q]. A Python [dict] of metrics is an ordered
    association list with Python's insertion and update semantics; the
    shared prediction cache [self._predictions] is a [gmap string (list Q)].
    Exceptions are the constructors of [exc]; the method bodies run in a
    state and exception monad whose state survives a raised exception, as
    Python object mutation does. *)

From stdpp Require Import base gmap strings list.
From Stdlib Require Import QArith Sorting.Sorted.

Open Scope Q_scope.

(* ------------------------------------------------------------------ *)
(** ** Python floats and dictionaries *)

Inductive pyfloat := Num (q : Q) | PInf | NaN.

Definition Qltb (x y : Q) : bool := negb (Qle_bool y x).

(** [a < b] on Python floats: every comparison with nan is false. *)
Definition py_lt (a b : pyfloat) : bool :=
  match a, b with
  | Num x, Num y => Qltb x y
  | Num _, PInf => true
  | _, _ => false
  end.

(** Built-in [min(a, b)]: keeps [a] unless [b < a]. *)
Definition py_min (a b : pyfloat) : pyfloat := if py_lt b a then b else a.

(** numpy arithmetic on the finite-or-nan values of the metric code
    (no infinity is produced there): nan is absorbing. *)
Definition fop (f : Q -> Q -> Q) (a b : pyfloat) : pyfloat :=
  match a, b with Num x, Num y => Num (f x y) | _, _ => NaN end.

Inductive exc :=
  | KeyError | ZeroDivisionError | StopIteration | IndexError | ValueError
  | SourceError.

Inductive res (A : Type) := Ok (a : A) | Err (e : exc).
Arguments Ok {A} a.
Arguments Err {A} e.

(** An ordered Python [dict] from metric names to floats. *)
Definition dict := list (string * pyfloat).

Fixpoint dict_get (d : dict) (k : string) : option pyfloat :=
  match d with
  | [] => None
  | (k', v) :: d' => if String.eqb k k' then Some v else dict_get d' k
  end.

(** [d[k] = v]: an existing key keeps its position, a new one goes last. *)
Fixpoint dict_set (k : string) (v : pyfloat) (d : dict) : dict :=
  match d with
  | [] => [(k, v)]
  | (k', v') :: d' =>
      if String.eqb k k' then (k', v) :: d' else (k', v') :: dict_set k v d'
  end.

(** [d1.update(d2)]. *)
Definition dict_update (d1 d2 : dict) : dict :=
  fold_left (fun d kv => dict_set kv.1 kv.2 d) d2 d1.

Definition dict_keys (d : dict) : list string := map fst d.

(* ------------------------------------------------------------------ *)
(** ** [BaseBinaryClassifier._get_classes] *)

(** [(predictions.data > 0.5).float()] on one score. *)
Definition class_of (s : Q) : Q := if Qltb (1#2) s then 1 else 0.

Definition _get_classes (predictions : list Q) : list Q := map class_of predictions.

(* ------------------------------------------------------------------ *)
(** ** The scikit-learn metrics called by [_compute_metrics]

    Modelled on scikit-learn's [sklearn.metrics] for 0/1 float labels with
    [pos_label=1.0]: label-type validation, the [zero_division] default
    (0.0 with a warning) of [precision_score] / [recall_score],
    [accuracy_score], [roc_curve] with [drop_intermediate=True] and [auc]. *)
Module Sk.

Definition is_label (q : Q) : bool := Qeq_bool q 0 || Qeq_bool q 1.
Definition is_pos (q : Q) : bool := Qeq_bool q 1.

(** [_check_targets]: consistent lengths and binary label sets. *)
Definition check_targets (y_true y_pred : list Q) : res unit :=
  if negb (Nat.eqb (length y_true) (length y_pred)) then Err ValueError
  else if forallb is_label y_true && forallb is_label y_pred then Ok tt
  else Err ValueError.

Definition count2 (f : Q -> Q -> bool) (y_true y_pred : list Q) : nat :=
  length (filter (fun p => f p.1 p.2) (zip y_true y_pred)).

Definition div_or_zero (n d : nat) : pyfloat :=
  if Nat.eqb d 0 then Num 0 else Num (inject_Z (Z.of_nat n) / inject_Z (Z.of_nat d)).

Definition precision_score (y_true y_pred : list Q) : res pyfloat :=
  match check_targets y_true y_pred with
  | Err e => Err e
  | Ok _ =>
      let tp := count2 (fun t p => is_pos t && is_pos p) y_true y_pred in
      let fp := count2 (fun t p => negb (is_pos t) && is_pos p) y_true y_pred in
      Ok (div_or_zero tp (tp + fp))
  end.

Definition recall_score (y_true y_pred : list Q) : res pyfloat :=
  match check_targets y_true y_pred with
  | Err e => Err e
  | Ok _ =>
      let tp := count2 (fun t p => is_pos t && is_pos p) y_true y_pred in
      let fn := count2 (fun t p => is_pos t && negb (is_pos p)) y_true y_pred in
      Ok (div_or_zero tp (tp + fn))
  end.

(** Mean of [y_true == y_pred]; the mean of an empty array is nan. *)
Definition accuracy_score (y_true y_pred : list Q) : res pyfloat :=
  match check_targets y_true y_pred with
  | Err e => Err e
  | Ok _ =>
      if Nat.eqb (length y_true) 0 then Ok NaN
      else Ok (div_or_zero (count2 (fun t p => Qeq_bool t p) y_true y_pred)
                           (length y_true))
  end.

(** Insertion into a list sorted by decreasing score
    ([np.argsort(y_score, kind="mergesort")[::-1]]). *)
Fixpoint insert_desc (x : Q * Q) (l : list (Q * Q)) : list (Q * Q) :=
  match l with
  | [] => [x]
  | y :: l' => if Qltb y.2 x.2 then x :: y :: l' else y :: insert_desc x l'
  end.

Fixpoint sort_desc (l : list (Q * Q)) : list (Q * Q) :=
  match l with [] => [] | x :: l' => insert_desc x (sort_desc l') end.

Definition nat2Q (n : nat) : Q := inject_Z (Z.of_nat n).

(** [_binary_clf_curve] on (target, score) pairs sorted by decreasing
    score: at each index [i] closing a run of equal scores
    ([threshold_idxs]), the point (fps, tps, threshold) with
    [tps = cumsum(y_true)[i]] and [fps = 1 + i - tps]. *)
Fixpoint clf_points (i : nat) (tp : Q) (l : list (Q * Q)) : list (Q * Q * Q) :=
  match l with
  | [] => []
  | (t, s) :: rest =>
      let tp' := tp + (if is_pos t then 1 else 0) in
      match rest with
      | [] => [(nat2Q (S i) - tp', tp', s)]
      | (_, s') :: _ =>
          if Qeq_bool s s' then clf_points (S i) tp' rest
          else (nat2Q (S i) - tp', tp', s) :: clf_points (S i) tp' rest
      end
  end.

Definition fps_of (p : Q * Q * Q) : Q := p.1.1.
Definition tps_of (p : Q * Q * Q) : Q := p.1.2.

(** [drop_intermediate]: an interior point is kept when the second
    difference of fps or of tps is nonzero there; the first and the last
    points are always kept. [keep_from a b rest] treats [b], whose
    predecessor is [a]. *)
Fixpoint keep_from (a b : Q * Q * Q) (rest : list (Q * Q * Q)) : list (Q * Q * Q) :=
  match rest with
  | [] => [b]
  | c :: rest' =>
      let d2f := fps_of a - 2 * fps_of b + fps_of c in
      let d2t := tps_of a - 2 * tps_of b + tps_of c in
      (if negb (Qeq_bool d2f 0) || negb (Qeq_bool d2t 0) then [b] else [])
        ++ keep_from b c rest'
  end.

Definition drop_intermediate (l : list (Q * Q * Q)) : list (Q * Q * Q) :=
  match l with
  | a :: b :: c :: rest => a :: keep_from a b (c :: rest)
  | _ => l
  end.

(** [fps / fps[-1]], or an array of nan with a warning when [fps[-1] <= 0]. *)
Definition rate (xs : list Q) : list pyfloat :=
  match last xs with
  | Some l => if Qle_bool l 0 then map (fun _ => NaN) xs
              else map (fun x => Num (x / l)) xs
  | None => []
  end.

(** [roc_curve(y_true, y_score, pos_label=1.0)], returning (fpr, tpr). *)
Definition roc_curve (y_true y_score : list Q) : res (list pyfloat * list pyfloat) :=
  if negb (Nat.eqb (length y_true) (length y_score)) then Err ValueError else
  match clf_points 0 0 (sort_desc (zip y_true y_score)) with
  | [] => Err IndexError
  | pts =>
      let pts := drop_intermediate pts in
      let fps := 0 :: map fps_of pts in
      let tps := 0 :: map tps_of pts in
      Ok (rate fps, rate tps)
  end.

Fixpoint diff (xs : list pyfloat) : list pyfloat :=
  match xs with
  | x :: ((y :: _) as xs') => fop Qminus y x :: diff xs'
  | _ => []
  end.

(** [np.trapz(y, x)]: sum of [dx * (y[i] + y[i+1]) / 2]. *)
Fixpoint trapz (y x : list pyfloat) : pyfloat :=
  match y, x with
  | y0 :: ((y1 :: _) as y'), x0 :: ((x1 :: _) as x') =>
      fop Qplus (fop Qmult (fop Qminus x1 x0) (fop Qdiv (fop Qplus y0 y1) (Num 2)))
                (trapz y' x')
  | _, _ => Num 0
  end.

Definition py_neg (a : pyfloat) : pyfloat :=
  match a with Num x => Num (- x) | _ => a end.

(** [auc(x, y)]: at least two points, [x] monotone. *)
Definition auc (x y : list pyfloat) : res pyfloat :=
  if negb (Nat.eqb (length x) (length y)) then Err ValueError
  else if Nat.ltb (length x) 2 then Err ValueError
  else
    let dx := diff x in
    if existsb (fun d => py_lt d (Num 0)) dx then
      if forallb (fun d => negb (py_lt (Num 0) d)) dx then Ok (py_neg (trapz y x))
      else Err ValueError
    else Ok (trapz y x).

End Sk.

(* ------------------------------------------------------------------ *)
(** ** [BaseBinaryClassifier._compute_metrics] *)

Definition prefix_keys (prefix : string) (result : dict) : dict :=
  fold_left (fun final kv => dict_set (prefix +:+ kv.1) kv.2 final) result [].

Definition _compute_metrics (target_y pred_y : list Q)
    (predictions_are_classes training : bool) : res dict :=
  let prefix := if negb training then "val_" else "" in
  let result :=
    if predictions_are_classes then
      match Sk.recall_score target_y pred_y, Sk.precision_score target_y pred_y,
            Sk.accuracy_score target_y pred_y with
      | Ok recall, Ok precision, Ok accuracy =>
          Ok [("precision", precision); ("recall", recall); ("acc", accuracy)]
      | Err e, _, _ | _, Err e, _ | _, _, Err e => Err e
      end
    else
      match Sk.roc_curve target_y pred_y with
      | Err e => Err e
      | Ok (fpr, tpr) =>
          match Sk.auc fpr tpr with Err e => Err e | Ok a => Ok [("auc", a)] end
      end in
  match result with
  | Err e => Err e
  | Ok result => Ok (prefix_keys prefix result)
  end%string.

(* ------------------------------------------------------------------ *)
(** ** State and exception monad

    [M S A] runs on the object state [S]; a raised exception keeps the
    mutations done before it. *)

Definition M (S A : Type) : Type := S -> S * res A.

Definition ret {S A} (a : A) : M S A := fun s => (s, Ok a).

Definition bind {S A B} (m : M S A) (k : A -> M S B) : M S B :=
  fun s => match m s with
           | (s', Ok a) => k a s'
           | (s', Err e) => (s', Err e)
           end.

Definition raise {S A} (e : exc) : M S A := fun s => (s, Err e).

Definition lift {S A} (r : res A) : M S A := fun s => (s, r).

Notation "'let!' x := m 'in' k" := (bind m (fun x => k))
  (at level 200, x name, m at level 100, right associativity).
Notation "'do!' m ; k" := (bind m (fun _ => k))
  (at level 200, m at level 100, right associativity).

Inductive mode := Training | Inference.

Definition pred_keys : list string := ["target"; "predicted"; "probs"; "train_loss"]%string.

(** Modelled from the spec: [BaseModel._reset_predictions_cache] and the
    cache created by [BaseModel.__init__] (base/model.py is not in src/):
    the prediction cache with every sequence empty. *)
Definition empty_predictions : gmap string (list Q) :=
  list_to_map (map (fun k => (k, [])) pred_keys).

(** Modelled from the spec: [BaseModel._accumulate_results(targets,
    classes, loss, probs)] (base/model.py is not in src/): appends one
    batch's targets, classes, loss and probabilities to the cache. *)
Definition accumulate_results (targets classes : list Q) (loss : Q) (probs : list Q)
    (p : gmap string (list Q)) : gmap string (list Q) :=
  let app k xs (p : gmap string (list Q)) := <[k := default [] (p !! k) ++ xs]> p in
  app "probs"%string probs (app "train_loss"%string [loss]
    (app "predicted"%string classes (app "target"%string targets p))).

Definition mean (xs : list Q) : res Q :=
  match xs with
  | [] => Err ZeroDivisionError
  | _ => Ok (fold_right Qplus 0 xs / Sk.nat2Q (length xs))
  end.

(* ------------------------------------------------------------------ *)
(** ** [BaseBinaryClassifier]: [evaluate] and [fit]

    The network and the optimizer are parameters: [forward] is
    [self.__call__] in the current mode, [loss_fn] the loss given to
    [fit], and [optim_step] the parameters after [optim.zero_grad()],
    [loss.backward()] and [optim.step()] on one batch. *)
Section Classifier.

Variable Input : Type.
Variable Params : Type.
Variable forward : Params -> mode -> Input -> list Q.
Variable loss_fn : list Q -> list Q -> Q.
Variable optim_step : Params -> Input -> list Q -> Params.
Variable fold_number : nat.

Record batch := { b_inputs : Input; b_targets : list Q }.

(** A [DataLoader]: each [next()] yields a batch or raises;
    [len(loader)] is the number of batches. *)
Definition loader := list (res batch).

Inductive event :=
  | EvNext | EvForward (m : mode) | EvClassify
  | EvZeroGrad | EvLoss | EvBackward | EvStep | EvAccumulate
  | EvSetMode (m : mode)
  | EvLog (data : dict) (log_grads : bool)
  | EvResetCache
  | EvSave (epoch fold : nat) (is_best : bool).

Record state := {
  st_mode : mode;
  st_params : Params;
  st_preds : gmap string (list Q);
  st_epoch : nat;
  st_trace : list event }.

Definition emit (ev : event) : M state unit :=
  fun s => ({| st_mode := st_mode s; st_params := st_params s; st_preds := st_preds s;
               st_epoch := st_epoch s; st_trace := st_trace s ++ [ev] |}, Ok tt).

Definition set_preds (p : gmap string (list Q)) : M state unit :=
  fun s => ({| st_mode := st_mode s; st_params := st_params s; st_preds := p;
               st_epoch := st_epoch s; st_trace := st_trace s |}, Ok tt).

Definition set_params (w : Params) : M state unit :=
  fun s => ({| st_mode := st_mode s; st_params := w; st_preds := st_preds s;
               st_epoch := st_epoch s; st_trace := st_trace s |}, Ok tt).

Definition set_epoch (e : nat) : M state unit :=
  fun s => ({| st_mode := st_mode s; st_params := st_params s; st_preds := st_preds s;
               st_epoch := e; st_trace := st_trace s |}, Ok tt).

(** [self.eval()] / [self.train()]. *)
Definition set_mode (m : mode) : M state unit :=
  fun s => ({| st_mode := m; st_params := st_params s; st_preds := st_preds s;
               st_epoch := st_epoch s; st_trace := st_trace s ++ [EvSetMode m] |}, Ok tt).

Definition get : M state state := fun s => (s, Ok s).

(** [self._predictions[k]]. *)
Definition getitem (k : string) : M state (list Q) :=
  fun s => match st_preds s !! k with
           | Some v => (s, Ok v)
           | None => (s, Err KeyError)
           end.

(** [self._predictions.pop(k)]. *)
Definition pop (k : string) : M state (list Q) :=
  let! s := get in
  match st_preds s !! k with
  | Some v => do! set_preds (delete k (st_preds s)); ret v
  | None => raise KeyError
  end.

(** [_get_inputs(iterator)]: [next(iterator)]. *)
Definition _get_inputs (it : loader) : M state (batch * loader) :=
  do! emit EvNext;
  match it with
  | [] => raise StopIteration
  | Ok b :: it' => ret (b, it')
  | Err e :: _ => raise e
  end.

(** [predict(x, return_classes=True)]. *)
Definition predict (x : Input) : M state (list Q * list Q) :=
  let! s := get in
  let predictions := forward (st_params s) (st_mode s) x in
  do! emit (EvForward (st_mode s));
  do! emit EvClassify;
  ret (predictions, _get_classes predictions).

Definition _accumulate_results (targets classes : list Q) (loss : Q) (probs : list Q)
    : M state unit :=
  let! s := get in
  do! set_preds (accumulate_results targets classes loss probs (st_preds s));
  emit EvAccumulate.

(** Modelled from the spec: [BaseModel._log_and_reset(logger, data,
    log_grads)] (base/model.py is not in src/): hands the record to the
    logger. *)
Definition _log_and_reset (data : dict) (log_grads : bool) : M state unit :=
  emit (EvLog data log_grads).

Definition _reset_predictions_cache : M state unit :=
  do! set_preds empty_predictions; emit EvResetCache.

(** Modelled from the spec: [BaseModel.save(path, optim, is_best)]
    (base/model.py is not in src/): writes the checkpoint
    "./models/clf_<epoch>_fold_<fold>.mdl", and the best path when
    [is_best]. *)
Definition save (epoch : nat) (is_best : bool) : M state unit :=
  emit (EvSave epoch fold_number is_best).

(** Local buffers of the validation pass: all_targets, all_probs,
    all_predictions, losses. *)
Definition val_buffers : Type := list Q * list Q * list Q * list Q.

(** The loop [for i in range(iter_per_epoch)] of [evaluate]. *)
Fixpoint val_loop (n : nat) (it : loader) (lossf : option (list Q -> list Q -> Q))
    (acc : val_buffers) : M state val_buffers :=
  match n with
  | O => ret acc
  | S n' =>
      let! bi := _get_inputs it in
      let '(b, it') := bi in
      let! pc := predict (b_inputs b) in
      let '(probs, classes) := pc in
      let target_y := b_targets b in
      let '(all_targets, all_probs, all_predictions, losses) := acc in
      let! losses' :=
        match lossf with
        | Some f => do! emit EvLoss; ret (losses ++ [f probs target_y])
        | None => ret losses
        end in
      val_loop n' it' lossf
        (all_targets ++ target_y, all_probs ++ probs, all_predictions ++ classes, losses')
  end.

Definition evaluate (ld : loader) (lossf : option (list Q -> list Q -> Q))
    (switch_to_eval : bool) : M state dict :=
  let! train_losses := pop "train_loss" in
  let! train_loss := lift (mean train_losses) in
  let! tgt := getitem "target" in
  let! prd := getitem "predicted" in
  let! train_metrics_1 := lift (_compute_metrics tgt prd true true) in
  let! tgt' := getitem "target" in
  let! prb := getitem "probs" in
  let! train_metrics_2 := lift (_compute_metrics tgt' prb false true) in
  let train_metrics :=
    dict_update (dict_update [("train_loss", Num train_loss)] train_metrics_1)
                train_metrics_2 in
  do! (if switch_to_eval then set_mode Inference else ret tt);
  let! bufs := val_loop (length ld) ld lossf ([], [], [], []) in
  let '(all_targets, all_probs, all_predictions, losses) := bufs in
  let! computed_metrics := lift (_compute_metrics all_targets all_predictions true false) in
  let! computed_metrics_1 := lift (_compute_metrics all_targets all_probs false false) in
  let! val_loss := lift (mean losses) in
  let computed :=
    dict_update (dict_update computed_metrics [("val_loss", Num val_loss)])
                computed_metrics_1 in
  do! (if switch_to_eval then set_mode Training else ret tt);
  do! _log_and_reset train_metrics true;
  do! _log_and_reset computed false;
  do! _reset_predictions_cache;
  ret computed.

(** Lines 90-121 of [evaluate], the steps before
    [val_loss = sum(losses) / len(losses)]: the same code as [evaluate]
    up to there, returning the local loss buffer [losses]. *)
Definition evaluate_before_val_loss (ld : loader) (lossf : option (list Q -> list Q -> Q))
    (switch_to_eval : bool) : M state (list Q) :=
  let! train_losses := pop "train_loss" in
  let! train_loss := lift (mean train_losses) in
  let! tgt := getitem "target" in
  let! prd := getitem "predicted" in
  let! train_metrics_1 := lift (_compute_metrics tgt prd true true) in
  let! tgt' := getitem "target" in
  let! prb := getitem "probs" in
  let! train_metrics_2 := lift (_compute_metrics tgt' prb false true) in
  do! (if switch_to_eval then set_mode Inference else ret tt);
  let! bufs := val_loop (length ld) ld lossf ([], [], [], []) in
  let '(all_targets, all_probs, all_predictions, losses) := bufs in
  let! computed_metrics := lift (_compute_metrics all_targets all_predictions true false) in
  let! computed_metrics_1 := lift (_compute_metrics all_targets all_probs false false) in
  ret losses.

(** The loop [for i in range(iter_per_epoch)] of [fit] over one loader. *)
Fixpoint train_batches (n : nat) (it : loader) : M state unit :=
  match n with
  | O => ret tt
  | S n' =>
      let! bi := _get_inputs it in
      let '(b, it') := bi in
      let! pc := predict (b_inputs b) in
      let '(predictions, classes) := pc in
      do! emit EvZeroGrad;
      let loss := loss_fn predictions (b_targets b) in
      do! emit EvLoss;
      do! emit EvBackward;
      let! s := get in
      do! set_params (optim_step (st_params s) (b_inputs b) (b_targets b));
      do! emit EvStep;
      do! _accumulate_results (b_targets b) classes loss predictions;
      train_batches n' it'
  end.

(** [for data_loader in data_loaders]: one training epoch. *)
Fixpoint train_epoch (lds : list loader) : M state unit :=
  match lds with
  | [] => ret tt
  | ld :: lds' => do! train_batches (length ld) ld; train_epoch lds'
  end.

(** [for e in range(num_epochs)], from epoch [e] with [k] epochs left. *)
Fixpoint fit_epochs (e k : nat) (lds : list loader) (vld : loader) (best_loss : pyfloat)
    : M state pyfloat :=
  match k with
  | O => ret best_loss
  | S k' =>
      do! set_epoch e;
      do! train_epoch lds;
      let! stats := evaluate vld (Some loss_fn) true in
      let! v := lift (match dict_get stats "val_loss" with
                      | Some v => Ok v | None => Err KeyError end) in
      let is_best := py_lt v best_loss in
      let best_loss' := py_min best_loss v in
      do! save (S e) is_best;
      fit_epochs (S e) k' lds vld best_loss'
  end.

Definition fit (lds : list loader) (vld : loader) (num_epochs : nat) : M state pyfloat :=
  fit_epochs 0 num_epochs lds vld PInf.

End Classifier.

Arguments b_inputs {Input} _.
Arguments b_targets {Input} _.
Arguments st_mode {Params} _.
Arguments st_params {Params} _.
Arguments st_preds {Params} _.
Arguments st_epoch {Params} _.
Arguments st_trace {Params} _.
Arguments evaluate {Input Params} forward ld lossf switch_to_eval.
Arguments val_loop {Input Params} forward n it lossf acc.
Arguments evaluate_before_val_loss {Input Params} forward ld lossf switch_to_eval.
Arguments train_batches {Input Params} forward loss_fn optim_step n it.
Arguments train_epoch {Input Params} forward loss_fn optim_step lds.
Arguments fit_epochs {Input Params} forward loss_fn optim_step fold_number e k lds vld best_loss.
Arguments fit {Input Params} forward loss_fn optim_step fold_number lds vld num_epochs.

(* ------------------------------------------------------------------ *)
(** ** A concrete classifier for test runs

    Scores are the inputs themselves, the loss is constant and the
    optimizer leaves the (trivial) parameters as they are. *)

Definition ex_forward (_ : unit) (_ : mode) (x : list Q) : list Q := x.
Definition ex_loss (_ _ : list Q) : Q := 1#2.
Definition ex_step (w : unit) (_ _ : list Q) : unit := w.

Definition ex_batch : batch (list Q) :=
  {| b_inputs := [9#10; 1#10; 9#10; 1#10]; b_targets := [1; 0; 1; 0] |}.

(** The cache after one training batch of [ex_batch]. *)
Definition ex_trained_preds : gmap string (list Q) :=
  accumulate_results [1; 0; 1; 0] [1; 0; 1; 0] (1#2) [9#10; 1#10; 9#10; 1#10]
    empty_predictions.

Definition ex_state (p : gmap string (list Q)) : state unit :=
  {| st_mode := Training; st_params := tt; st_preds := p; st_epoch := 0; st_trace := [] |}.

(* ------------------------------------------------------------------ *)
(** ** One training batch, written out

    The events of one iteration of [fit]'s inner loop, in source order,
    and the object state after it: the network runs in the current mode,
    the optimizer updates the parameters, and the batch is appended to
    the prediction cache. *)

Definition train_batch_events (m : mode) : list event :=
  [EvNext; EvForward m; EvClassify; EvZeroGrad; EvLoss; EvBackward; EvStep; EvAccumulate].

Definition train_step_state {Input Params : Type} (forward : Params -> mode -> Input -> list Q)
    (loss_fn : list Q -> list Q -> Q) (optim_step : Params -> Input -> list Q -> Params)
    (s : state Params) (b : batch Input) : state Params :=
  let m := st_mode s in
  let predictions := forward (st_params s) m (b_inputs b) in
  {| st_mode := m;
     st_params := optim_step (st_params s) (b_inputs b) (b_targets b);
     st_preds := accumulate_results (b_targets b) (_get_classes predictions)
                   (loss_fn predictions (b_targets b)) predictions (st_preds s);
     st_epoch := st_epoch s;
     st_trace := ((((((((st_trace s ++ [EvNext]) ++ [EvForward m]) ++ [EvClassify])
                   ++ [EvZeroGrad]) ++ [EvLoss]) ++ [EvBackward]) ++ [EvStep])
                   ++ [EvAccumulate]) |}.

(** The effect of training on the batches [bs], from state [s] to [s']. *)
Definition trained_on {Input Params : Type} (optim_step : Params -> Input -> list Q -> Params)
    (bs : list (batch Input)) (s s' : state Params) : Prop :=
  st_mode s' = st_mode s
  /\ st_epoch s' = st_epoch s
  /\ st_trace s' = st_trace s ++ concat (map (fun _ => train_batch_events (st_mode s)) bs)
  /\ st_params s' = fold_left (fun w b => optim_step w (b_inputs b) (b_targets b)) bs (st_params s)
  /\ default [] (st_preds s' !! "target"%string)
     = default [] (st_preds s !! "target"%string) ++ concat (map b_targets bs)
  /\ length (default [] (st_preds s' !! "train_loss"%string))
     = (length (default [] (st_preds s !! "train_loss"%string)) + length bs)%nat.

(* ------------------------------------------------------------------ *)
(** ** What [fit] leaves in the trace

    The checkpoints written, and the [val_loss] entry of each validation
    record handed to the logger ([_log_and_reset(..., log_grads=False)]). *)

Fixpoint save_events (tr : list event) : list (nat * nat * bool) :=
  match tr with
  | [] => []
  | EvSave epoch fold is_best :: tr' => (epoch, fold, is_best) :: save_events tr'
  | _ :: tr' => save_events tr'
  end.

Fixpoint val_losses_logged (tr : list event) : list (option pyfloat) :=
  match tr with
  | [] => []
  | EvLog d false :: tr' => dict_get d "val_loss"%string :: val_losses_logged tr'
  | _ :: tr' => val_losses_logged tr'
  end.

(** Events that are neither a checkpoint nor a log record. *)
Definition quiet (ev : event) : Prop :=
  match ev with EvSave _ _ _ | EvLog _ _ => False | _ => True end.

(** [best_loss] after the epochs with validation losses [vs], starting
    from [best]: [best_loss = min(best_loss, stats["val_loss"])]. *)
Definition best_after (best : pyfloat) (vs : list Q) : pyfloat :=
  fold_left (fun b v => py_min b (Num v)) vs best.

(* ------------------------------------------------------------------ *)
(** ** The networks of src/cnn/model.py: tensor shapes through [forward]

    [conv3x3], [BasicBlock], [ResNet._make_layer], [ResNet] and [LeNet]
    are modelled at the level of tensor shapes: each torch module maps
    the shape of its input to the shape of its output, or raises (None).
    The rules are torch's: a 2-d convolution or pooling window (dilation
    1, floor mode) gives [(x + 2 * padding - kernel_size) / stride + 1]
    and raises when the padded input is smaller than the kernel; the
    number of input channels and of input features must match the
    module's; batch normalisation in training mode raises when it sees a
    single value per channel; [x.view(x.size(0), -1)] raises on an empty
    batch; the in-place addition [out += residual] broadcasts [residual]
    to the shape of [out]. Element-wise modules keep the shape. *)
Module Net.

Local Open Scope nat_scope.

Inductive shape := S4 (n c h w : nat) | S2 (n f : nat).

(** Output side of a convolution or pooling window along one axis. *)
Definition out_side (kernel_size stride padding x : nat) : option nat :=
  if (kernel_size =? 0) || (stride =? 0) || (x + 2 * padding <? kernel_size) then None
  else Some ((x + 2 * padding - kernel_size) / stride + 1).

(** Batch normalisation in training mode needs more than one value per
    channel ([N * H * W <> 1]). *)
Definition bn_ok (m : mode) (n h w : nat) : bool :=
  match m with Training => negb (n * h * w =? 1) | Inference => true end.

Inductive module :=
  | Conv2d (in_channels out_channels kernel_size stride padding : nat)
  | BatchNorm2d (num_features : nat)
  | ELU
  | Sigmoid
  | MaxPool2d (kernel_size stride padding : nat)
  | Linear (in_features out_features : nat).

Definition module_fwd (m : mode) (md : module) (x : shape) : option shape :=
  match md, x with
  | Conv2d i o k s p, S4 n c h w =>
      if c =? i then
        h' ← out_side k s p h; w' ← out_side k s p w; Some (S4 n o h' w')
      else None
  | BatchNorm2d nf, S4 n c h w => if (c =? nf) && bn_ok m n h w then Some x else None
  | ELU, _ | Sigmoid, _ => Some x
  | MaxPool2d k s p, S4 n c h w =>
      if k / 2 <? p then None
      else h' ← out_side k s p h; w' ← out_side k s p w; Some (S4 n c h' w')
  | Linear i o, S2 n f => if f =? i then Some (S2 n o) else None
  | Linear i o, S4 n c h w => if w =? i then Some (S4 n c h o) else None
  | _, _ => None
  end.

(** [nn.Sequential]. *)
Fixpoint seq_fwd (m : mode) (ms : list module) (x : shape) : option shape :=
  match ms with
  | [] => Some x
  | md :: ms' => y ← module_fwd m md x; seq_fwd m ms' y
  end.

(** [x.view(x.size(0), -1)]. *)
Definition view_flat (x : shape) : option shape :=
  match x with
  | S4 n c h w => if n =? 0 then None else Some (S2 n (c * h * w))
  | S2 n f => if n =? 0 then None else Some (S2 n f)
  end.

(** A dimension [r] of [residual] broadcasts to the dimension [o] of [out]. *)
Definition bdim (r o : nat) : bool := (r =? o) || (r =? 1).

(** [out += residual] on two tensors of the same rank (the only case
    [BasicBlock.forward] reaches: both are outputs of 2-d modules). *)
Definition add_inplace (out residual : shape) : option shape :=
  match out, residual with
  | S4 n c h w, S4 n' c' h' w' =>
      if bdim n' n && bdim c' c && bdim h' h && bdim w' w then Some out else None
  | S2 n f, S2 n' f' => if bdim n' n && bdim f' f then Some out else None
  | _, _ => None
  end.

Definition conv3x3 (in_planes out_planes stride : nat) : module :=
  Conv2d in_planes out_planes 3 stride 1.

Record basic_block := {
  bb_conv1 : module; bb_bn1 : module; bb_conv2 : module; bb_bn2 : module;
  bb_downsample : option (list module) }.

(** [BasicBlock.expansion]. *)
Definition expansion : nat := 1.

(** [BasicBlock(inplanes, planes, stride, downsample)]. *)
Definition BasicBlock (inplanes planes stride : nat) (downsample : option (list module))
    : basic_block :=
  {| bb_conv1 := conv3x3 inplanes planes stride; bb_bn1 := BatchNorm2d planes;
     bb_conv2 := conv3x3 planes planes 1; bb_bn2 := BatchNorm2d planes;
     bb_downsample := downsample |}.

(** [BasicBlock.forward]. *)
Definition BasicBlock_forward (m : mode) (b : basic_block) (x : shape) : option shape :=
  out ← module_fwd m (bb_conv1 b) x;
  out ← module_fwd m (bb_bn1 b) out;
  out ← module_fwd m ELU out;
  out ← module_fwd m (bb_conv2 b) out;
  out ← module_fwd m (bb_bn2 b) out;
  residual ← (match bb_downsample b with None => Some x | Some d => seq_fwd m d x end);
  out ← add_inplace out residual;
  module_fwd m ELU out.

(** An [nn.Sequential] of blocks. *)
Fixpoint blocks_fwd (m : mode) (bs : list basic_block) (x : shape) : option shape :=
  match bs with
  | [] => Some x
  | b :: bs' => y ← BasicBlock_forward m b x; blocks_fwd m bs' y
  end.

(** [ResNet._make_layer(BasicBlock, planes, blocks, stride)] on
    [self.inplanes = inplanes]: the blocks and the new [self.inplanes]
    ([blocks] is a count; [range(1, blocks)] is empty for [blocks <= 1]). *)
Definition _make_layer (inplanes planes blocks stride : nat) : list basic_block * nat :=
  let downsample :=
    if negb (stride =? 1) || negb (inplanes =? planes * expansion)
    then Some [Conv2d inplanes (planes * expansion) 1 stride 0;
               BatchNorm2d (planes * expansion)]
    else None in
  let first := BasicBlock inplanes planes stride downsample in
  let inplanes' := planes * expansion in
  (first :: map (fun _ => BasicBlock inplanes' planes 1 None) (seq 1 (blocks - 1)),
   inplanes').

Record resnet := {
  rn_conv1 : module; rn_bn1 : module; rn_maxpool : module;
  rn_layer1 : list basic_block; rn_layer2 : list basic_block; rn_layer3 : list basic_block;
  rn_fc1 : module; rn_fc2 : module }.

(** [ResNet(BasicBlock, num_feature_planes, layers, num_classes)]:
    [layers[0]], [layers[1]] and [layers[2]] raise IndexError (None) when
    the list is too short. *)
Definition ResNet_init (num_feature_planes : nat) (layers : list nat) (num_classes : nat)
    : option resnet :=
  l0 ← layers !! 0;
  let '(layer1, ip1) := _make_layer 32 32 l0 1 in
  l1 ← layers !! 1;
  let '(layer2, ip2) := _make_layer ip1 48 l1 2 in
  l2 ← layers !! 2;
  let '(layer3, _) := _make_layer ip2 64 l2 2 in
  Some {| rn_conv1 := Conv2d num_feature_planes 32 3 2 1; rn_bn1 := BatchNorm2d 32;
          rn_maxpool := MaxPool2d 2 2 1;
          rn_layer1 := layer1; rn_layer2 := layer2; rn_layer3 := layer3;
          rn_fc1 := Linear (64 * 5 * 5) 16; rn_fc2 := Linear 16 num_classes |}.

(** [ResNet.forward]. *)
Definition ResNet_forward (m : mode) (net : resnet) (x : shape) : option shape :=
  x ← module_fwd m (rn_conv1 net) x;
  x ← module_fwd m (rn_bn1 net) x;
  x ← module_fwd m ELU x;
  x ← module_fwd m (rn_maxpool net) x;
  x ← blocks_fwd m (rn_layer1 net) x;
  x ← blocks_fwd m (rn_layer2 net) x;
  x ← blocks_fwd m (rn_layer3 net) x;
  x ← view_flat x;
  x ← module_fwd m (rn_fc1 net) x;
  x ← module_fwd m (rn_fc2 net) x;
  module_fwd m Sigmoid x.

Record lenet := {
  ln_feature_extractor : list module; ln_fc1 : module; ln_fc2 : module; ln_fc3 : module }.

(** [LeNet(num_classes)]. *)
Definition LeNet_init (num_classes : nat) : lenet :=
  {| ln_feature_extractor :=
       [Conv2d 2 16 3 1 0; ELU; MaxPool2d 2 2 0;
        BatchNorm2d 16; Conv2d 16 32 3 1 0; ELU; MaxPool2d 2 2 0;
        BatchNorm2d 32; Conv2d 32 64 3 1 0; ELU; MaxPool2d 2 2 0;
        BatchNorm2d 64; Conv2d 64 128 3 1 0; ELU];
     ln_fc1 := Linear (128 * 5 * 5) 64; ln_fc2 := Linear 64 16;
     ln_fc3 := Linear 16 num_classes |}.

(** [LeNet.forward]. *)
Definition LeNet_forward (m : mode) (net : lenet) (x : shape) : option shape :=
  out ← seq_fwd m (ln_feature_extractor net) x;
  out ← view_flat out;
  out ← module_fwd m (ln_fc1 net) out;
  out ← module_fwd m (ln_fc2 net) out;
  out ← module_fwd m (ln_fc3 net) out;
  module_fwd m Sigmoid out.

(** The side of the feature map reaching [fc1] from an input side [x]:
    the windows of [conv1], [maxpool], [layer1], [layer2] and [layer3] for
    [ResNet]; of the four convolutions and three poolings for [LeNet]. *)
Definition resnet_side (x : nat) : option nat :=
  a ← out_side 3 2 1 x; b ← out_side 2 2 1 a; c ← out_side 3 1 1 b;
  d ← out_side 3 2 1 c; out_side 3 2 1 d.

Definition lenet_side (x : nat) : option nat :=
  a ← out_side 3 1 0 x; b ← out_side 2 2 0 a; c ← out_side 3 1 0 b;
  d ← out_side 2 2 0 c; e ← out_side 3 1 0 d; f ← out_side 2 2 0 e;
  out_side 3 1 0 f.

(** The sides after [conv1], [maxpool], [layer2] and [layer3] of [ResNet]
    ([layer1] keeps them). *)
Definition rs1 (x : nat) : nat := (x - 1) / 2 + 1.
Definition rs2 (x : nat) : nat := rs1 x / 2 + 1.
Definition rs3 (x : nat) : nat := (rs2 x - 1) / 2 + 1.
Definition rs4 (x : nat) : nat := (rs3 x - 1) / 2 + 1.

(** The side reaching [fc1] of [LeNet] for an input side of at least 38:
    each unpadded 3 x 3 convolution takes 2 off, each 2 x 2 pooling halves. *)
Definition lf (x : nat) : nat := (((x - 2) / 2 - 2) / 2 - 2) / 2 - 2.

End Net.

(** Steps of [evaluate] that leave parameters, epoch and cache as they are. *)
Definition keeps_fields {Params A : Type} (m : M (state Params) A) : Prop :=
  forall s s' r, m s = (s', r) ->
  st_params s' = st_params s /\ st_epoch s' = st_epoch s /\ st_preds s' = st_preds s.

(* ================================================================== *)
(** * Properties *)

Lemma Qltb_iff (x y : Q) : Qltb x y = true <-> x < y.
Proof.
  unfold Qltb. rewrite negb_true_iff. split.
  - intros H. apply Qnot_le_lt. intros H'. apply Qle_bool_iff in H'. congruence.
  - intros H. destruct (Qle_bool y x) eqn:E; [|reflexivity].
    apply Qle_bool_iff in E. exfalso. apply (Qlt_not_le x y H E).
Qed.

Lemma Qltb_false (x y : Q) : Qltb x y = false <-> y <= x.
Proof.
  unfold Qltb. rewrite negb_false_iff. apply Qle_bool_iff.
Qed.

(** C6: [_get_classes] maps a score to 1.0 exactly when it is strictly
    greater than 0.5 and to 0.0 otherwise; 0.5 itself is classified 0.0. *)
Theorem get_classes_threshold (predictions : list Q) :
  Forall2 (fun s c => (c = 1 /\ 1#2 < s) \/ (c = 0 /\ s <= 1#2))
          predictions (_get_classes predictions)
  /\ _get_classes [1#2] = [0].
Proof.
  split; [|reflexivity].
  induction predictions as [|s ps IH]; constructor; [|exact IH].
  unfold class_of. destruct (Qltb (1#2) s) eqn:E.
  - left. split; [reflexivity|]. now apply Qltb_iff.
  - right. split; [reflexivity|]. now apply Qltb_false.
Qed.

(** C7: the record built by [_compute_metrics] has the keys
    precision, recall, acc (classes) or auc (scores), unprefixed when
    [training] is true and each prefixed with "val_" when it is false. *)
Theorem compute_metrics_prefix (target_y pred_y : list Q)
    (predictions_are_classes training : bool) (d : dict) :
  _compute_metrics target_y pred_y predictions_are_classes training = Ok d ->
  dict_keys d =
    map (fun k => ((if training then "" else "val_") +:+ k)%string)
        (if predictions_are_classes then ["precision"; "recall"; "acc"]%string
         else ["auc"]%string).
Proof.
  unfold _compute_metrics.
  destruct predictions_are_classes.
  - destruct (Sk.recall_score target_y pred_y), (Sk.precision_score target_y pred_y),
      (Sk.accuracy_score target_y pred_y); intros H; inversion H; subst;
      destruct training; reflexivity.
  - destruct (Sk.roc_curve target_y pred_y) as [[fpr tpr]|e]; [|discriminate].
    destruct (Sk.auc fpr tpr); intros H; inversion H; subst;
      destruct training; reflexivity.
Qed.

Lemma compute_metrics_prefix_witness :
  _compute_metrics [1; 0] [1; 1] true false
    = Ok [("val_precision", Num (1#2)); ("val_recall", Num (1#1)); ("val_acc", Num (1#2))]%string
  /\ dict_keys [("val_precision", Num (1#2)); ("val_recall", Num (1#1)); ("val_acc", Num (1#2))]%string
     = ["val_precision"; "val_recall"; "val_acc"]%string.
Proof.
  assert (H : _compute_metrics [1; 0] [1; 1] true false
    = Ok [("val_precision", Num (1#2)); ("val_recall", Num (1#1)); ("val_acc", Num (1#2))]%string)
    by (vm_compute; reflexivity).
  split; [exact H|].
  exact (compute_metrics_prefix [1; 0] [1; 1] true false _ H).
Defined.

(** C10: with [num_epochs = 0], [fit] leaves the object state (mode,
    parameters, prediction cache, epoch counter and the trace of batch,
    evaluation and checkpoint events) unchanged and returns +inf. *)
Theorem fit_zero_epochs {Input Params : Type} forward loss_fn optim_step fold_number
    (lds : list (loader Input)) (vld : loader Input) (s : state Params) :
  fit forward loss_fn optim_step fold_number lds vld 0 s = (s, Ok PInf).
Proof. reflexivity. Qed.

(* ------------------------------------------------------------------ *)
(** ** Running [evaluate] step by step *)

Lemma bind_inv {S A B} (m : M S A) (k : A -> M S B) (s s' : S) (r : res B) :
  bind m k s = (s', r) ->
  (exists s1 a, m s = (s1, Ok a) /\ k a s1 = (s', r))
  \/ (exists e, m s = (s', Err e) /\ r = Err e).
Proof.
  unfold bind. destruct (m s) as [s1 [a|e]].
  - intros H. left. eauto.
  - intros H. inversion H; subst. right. eauto.
Qed.

Ltac bstep H :=
  let s1 := fresh "s" in let a := fresh "a" in let E := fresh "E" in
  let e := fresh "e" in
  apply bind_inv in H;
  let Hr := fresh "Hr" in
  destruct H as [(s1 & a & E & H) | (e & E & Hr)]; [cbv beta in H|].

(** What one iteration of the validation pass may append to the trace. *)
Definition val_event (m : mode) (ev : event) : Prop :=
  ev = EvNext \/ ev = EvForward m \/ ev = EvClassify \/ ev = EvLoss.

(** The validation loop only reads the object: mode, parameters, the
    shared prediction cache and the epoch are left as they are, and the
    trace grows by batch fetches, forward passes in the current mode,
    classifications and loss computations. *)
Lemma val_loop_frame {Input Params : Type} forward n (it : loader Input) lossf acc
    (s s' : state Params) r :
  val_loop forward n it lossf acc s = (s', r) ->
  st_mode s' = st_mode s /\ st_params s' = st_params s /\ st_preds s' = st_preds s
  /\ st_epoch s' = st_epoch s
  /\ exists new, st_trace s' = st_trace s ++ new /\ Forall (val_event (st_mode s)) new.
Proof.
  revert it acc s. induction n as [|n IH]; intros it acc s H; simpl in H.
  - inversion H; subst. repeat split; auto. exists []. rewrite app_nil_r. auto.
  - bstep H.
    + (* [_get_inputs] succeeded *)
      destruct a as [b it']. unfold _get_inputs, bind, emit in E.
      destruct it as [|[b0|e0] it0]; inversion E; subst; clear E. simpl in H.
      bstep H; [|].
      * destruct a as [probs classes]. unfold predict, bind, get, emit in E. simpl in E.
        inversion E; subst; clear E.
        destruct acc as [[[ats aps] acs] ls].
        destruct lossf as [f|].
        { unfold bind at 1, emit in H. simpl in H. apply IH in H. simpl in H.
          destruct H as (Hm & Hp & Hc & He & new & Ht & Hf).
          repeat split; auto.
          exists ([EvNext; EvForward (st_mode s); EvClassify; EvLoss] ++ new).
          rewrite Ht. simpl. split; [now rewrite <- !app_assoc|].
          repeat (constructor; [unfold val_event; auto 10|]). exact Hf. }
        { unfold bind at 1, ret in H. apply IH in H. simpl in H.
          destruct H as (Hm & Hp & Hc & He & new & Ht & Hf).
          repeat split; auto.
          exists ([EvNext; EvForward (st_mode s); EvClassify] ++ new).
          rewrite Ht. simpl. split; [now rewrite <- !app_assoc|].
          repeat (constructor; [unfold val_event; auto 10|]). exact Hf. }
      * unfold predict, bind, get, emit in E. simpl in E. discriminate E.
    + subst r. unfold _get_inputs, bind, emit in E.
      destruct it as [|[b0|e0] it0]; inversion E; subst; simpl;
        (repeat split; auto; exists [EvNext]; split; [reflexivity|]; repeat constructor;
         unfold val_event; auto).
Qed.

(** Without a loss function the validation loss buffer is never appended to. *)
Lemma val_loop_no_loss_fn {Input Params : Type} forward n (it : loader Input) acc
    (s s' : state Params) bufs :
  val_loop forward n it None acc s = (s', Ok bufs) -> bufs.2 = acc.2.
Proof.
  revert it acc s. induction n as [|n IH]; intros it acc s H; simpl in H.
  - now inversion H.
  - bstep H; [|discriminate].
    destruct a as [b it']. bstep H; [|discriminate].
    destruct a as [probs classes]. destruct acc as [[[ats aps] acs] ls].
    unfold bind at 1, ret in H. apply IH in H. exact H.
Qed.

Lemma val_loop_zero {Input Params : Type} forward (it : loader Input) lossf acc
    (s : state Params) :
  val_loop forward 0 it lossf acc s = (s, Ok acc).
Proof. reflexivity. Qed.

Ltac drive H := bstep H; [|try discriminate].

(** C3: when the cache's train_loss sequence is empty, [evaluate] fails at
    its first step: with ZeroDivisionError from [sum([]) / len([])] when
    the key holds an empty list (KeyError from [pop] when the key is
    absent), before any mode switch or validation batch. *)
Theorem evaluate_empty_train_loss {Input Params : Type} forward (ld : loader Input)
    lossf switch_to_eval (s : state Params)
    (Hempty : default [] (st_preds s !! "train_loss"%string) = []) :
  exists s', evaluate forward ld lossf switch_to_eval s
    = (s', Err (if st_preds s !! "train_loss"%string then ZeroDivisionError else KeyError))
  /\ st_mode s' = st_mode s /\ st_trace s' = st_trace s.
Proof.
  destruct (st_preds s !! "train_loss"%string) as [l|] eqn:E; simpl in Hempty.
  - subst l. cbv [evaluate bind pop get]. rewrite E.
    eexists. split; [reflexivity|]. split; reflexivity.
  - cbv [evaluate bind pop get]. rewrite E.
    eexists. split; [reflexivity|]. split; reflexivity.
Qed.

Lemma evaluate_empty_train_loss_witness :
  default [] (empty_predictions !! "train_loss"%string) = []
  /\ exists s', evaluate ex_forward [Ok ex_batch] (Some ex_loss) true (ex_state empty_predictions)
       = (s', Err (if empty_predictions !! "train_loss"%string then ZeroDivisionError else KeyError))
     /\ st_mode s' = st_mode (ex_state empty_predictions)
     /\ st_trace s' = st_trace (ex_state empty_predictions).
Proof.
  split; [vm_compute; reflexivity|].
  apply (evaluate_empty_train_loss ex_forward [Ok ex_batch] (Some ex_loss) true
           (ex_state empty_predictions)).
  vm_compute. reflexivity.
Defined.

(** C3, refuted as stated: with an empty train_loss sequence [evaluate]
    fails with ZeroDivisionError, i.e. by dividing by zero, and there is
    no NoTrainingData condition. *)
Lemma evaluate_empty_train_loss_divides_by_zero :
  snd (evaluate ex_forward [Ok ex_batch] (Some ex_loss) true (ex_state empty_predictions))
  = Err ZeroDivisionError.
Proof. vm_compute. reflexivity. Qed.

(** One step of [evaluate] and of [evaluate_before_val_loss] at once:
    both run the same first command. *)
Ltac split_step H :=
  apply bind_inv in H;
  let s1 := fresh "s" in let a := fresh "a" in let E := fresh "E" in
  let e := fresh "e" in let Hr := fresh "Hr" in
  destruct H as [(s1 & a & E & H) | (e & E & Hr)];
  [ cbv beta in H; unfold bind at 1; rewrite E; cbv beta
  | first [ discriminate Hr
          | injection Hr as <-; subst; unfold bind at 1; rewrite E; reflexivity ] ].

(** [evaluate] runs [evaluate_before_val_loss] and then divides: it fails
    with the error of those first steps, or, when they succeed, with the
    error of the mean of their loss buffer. *)
Lemma evaluate_before_val_loss_run {Input Params : Type} forward (ld : loader Input)
    lossf switch_to_eval (s s1 : state Params) r :
  evaluate_before_val_loss forward ld lossf switch_to_eval s = (s1, r) ->
  match r with
  | Err e => evaluate forward ld lossf switch_to_eval s = (s1, Err e)
  | Ok ls => forall e, mean ls = Err e ->
             evaluate forward ld lossf switch_to_eval s = (s1, Err e)
  end.
Proof.
  intros H. unfold evaluate_before_val_loss in H. unfold evaluate.
  destruct r as [ls|e0]; [intros e Hm|].
  all: do 10 split_step H.
  all: match goal with a : val_buffers |- _ => destruct a as [[[ats aps] acs] ls'] end.
  all: cbv beta iota zeta in H |- *.
  all: do 2 split_step H.
  all: cbv [ret] in H; try discriminate H.
  injection H as <- <-. unfold bind at 1. cbv [lift]. rewrite Hm. reflexivity.
Qed.

(** C9: with no loss function, or with a validation loader of zero
    batches, the validation loss buffer stays empty, so [evaluate] never
    returns a record. It fails with ZeroDivisionError, from
    [sum(losses) / len(losses)] on the empty buffer, whenever the steps
    before that division succeed, and with the error of the failing step
    otherwise. *)
Theorem evaluate_no_validation_loss {Input Params : Type} forward (ld : loader Input)
    lossf switch_to_eval (s : state Params) (Hcase : lossf = None \/ ld = []) :
  (forall s1 s2 bufs,
     val_loop forward (length ld) ld lossf ([], [], [], []) s1 = (s2, Ok bufs) ->
     bufs.2 = [])
  /\ (forall s' d, evaluate forward ld lossf switch_to_eval s <> (s', Ok d))
  /\ (forall s1 ls,
        evaluate_before_val_loss forward ld lossf switch_to_eval s = (s1, Ok ls) ->
        ls = [] /\ evaluate forward ld lossf switch_to_eval s = (s1, Err ZeroDivisionError))
  /\ (forall s1 e,
        evaluate_before_val_loss forward ld lossf switch_to_eval s = (s1, Err e) ->
        evaluate forward ld lossf switch_to_eval s = (s1, Err e)).
Proof.
  assert (Hbuf : forall s1 s2 bufs,
     val_loop forward (length ld) ld lossf ([], [], [], []) s1 = (s2, Ok bufs) ->
     bufs.2 = []).
  { intros s1 s2 bufs H. destruct Hcase as [-> | ->].
    - apply val_loop_no_loss_fn in H. exact H.
    - simpl in H. inversion H. reflexivity. }
  split; [exact Hbuf|]. split; [|split].
  - intros s' d H. unfold evaluate in H.
    do 10 drive H.
    match goal with
    | Hv : val_loop _ _ _ _ _ _ = (_, Ok ?b) |- _ =>
        pose proof (Hbuf _ _ _ Hv) as Hl; destruct b as [[[ats aps] acs] ls]
    end.
    simpl in Hl. subst ls. cbv beta iota zeta in H.
    do 3 drive H.
    match goal with Hm : lift (mean []) _ = _ |- _ => discriminate Hm end.
  - intros s1 ls H.
    pose proof (evaluate_before_val_loss_run _ _ _ _ _ _ _ H) as Hrun. cbv beta iota in Hrun.
    assert (Hls : ls = []).
    { unfold evaluate_before_val_loss in H.
      do 10 drive H.
      match goal with
      | Hv : val_loop _ _ _ _ _ _ = (_, Ok ?b) |- _ =>
          pose proof (Hbuf _ _ _ Hv) as Hl; destruct b as [[[ats aps] acs] ls']
      end.
      simpl in Hl. subst ls'. cbv beta iota zeta in H.
      do 2 drive H. cbv [ret] in H. injection H as _ <-. reflexivity. }
    subst ls. split; [reflexivity|]. apply Hrun. reflexivity.
  - intros s1 e H. exact (evaluate_before_val_loss_run _ _ _ _ _ _ _ H).
Qed.

Lemma evaluate_no_validation_loss_witness :
  (None = @None (list Q -> list Q -> Q) \/ [Ok ex_batch] = @nil (res (batch (list Q))))
  /\ ((forall s1 s2 bufs,
         val_loop ex_forward (length [Ok ex_batch]) [Ok ex_batch] None ([], [], [], []) s1
           = (s2, Ok bufs) -> bufs.2 = [])
      /\ (forall s' d, evaluate ex_forward [Ok ex_batch] None true (ex_state ex_trained_preds)
                       <> (s', Ok d))
      /\ (forall s1 ls,
            evaluate_before_val_loss ex_forward [Ok ex_batch] None true (ex_state ex_trained_preds)
              = (s1, Ok ls) ->
            ls = [] /\ evaluate ex_forward [Ok ex_batch] None true (ex_state ex_trained_preds)
                       = (s1, Err ZeroDivisionError))
      /\ (forall s1 e,
            evaluate_before_val_loss ex_forward [Ok ex_batch] None true (ex_state ex_trained_preds)
              = (s1, Err e) ->
            evaluate ex_forward [Ok ex_batch] None true (ex_state ex_trained_preds)
              = (s1, Err e))).
Proof.
  split; [left; reflexivity|].
  apply (evaluate_no_validation_loss ex_forward [Ok ex_batch] None true
           (ex_state ex_trained_preds)).
  left. reflexivity.
Defined.

(** The steps before the division succeed on the example: [evaluate]
    without a loss function gets as far as [sum(losses) / len(losses)]. *)
Lemma evaluate_before_val_loss_example :
  snd (evaluate_before_val_loss ex_forward [Ok ex_batch] None true (ex_state ex_trained_preds))
  = Ok [].
Proof. vm_compute. reflexivity. Qed.

(** C9, refuted as stated: with no loss function [evaluate] divides the
    empty loss sum by [len([]) = 0] and fails with ZeroDivisionError;
    there is no NoValidationData condition. *)
Lemma evaluate_no_loss_fn_divides_by_zero :
  snd (evaluate ex_forward [Ok ex_batch] None true (ex_state ex_trained_preds))
  = Err ZeroDivisionError.
Proof. vm_compute. reflexivity. Qed.

(** Steps of [evaluate] that leave mode and trace as they are. *)
Definition read_only {Params A : Type} (m : M (state Params) A) : Prop :=
  forall s s' r, m s = (s', r) -> st_mode s' = st_mode s /\ st_trace s' = st_trace s.

Lemma pop_read_only {Params : Type} k : read_only (pop Params k).
Proof.
  intros s s' r H. unfold pop, bind, get in H.
  destruct (st_preds s !! k); unfold set_preds, ret, raise in H; simpl in H;
    inversion H; subst; auto.
Qed.

Lemma getitem_read_only {Params : Type} k : read_only (getitem Params k).
Proof.
  intros s s' r H. unfold getitem in H.
  destruct (st_preds s !! k); inversion H; subst; auto.
Qed.

Lemma lift_read_only {Params A : Type} (x : res A) : read_only (Params := Params) (lift x).
Proof. intros s s' r H. unfold lift in H. inversion H; subst; auto. Qed.

Ltac ro_step H lem :=
  bstep H;
  [ match goal with
    | E : _ = (_, Ok _), Hm : st_mode _ = _, Ht : st_trace _ = _ |- _ =>
        destruct (lem _ _ _ E) as [Hm' Ht']; clear E;
        try rewrite Hm in Hm'; try rewrite Ht in Ht'; clear Hm Ht;
        rename Hm' into Hm; rename Ht' into Ht
    end
  | match goal with
    | E : _ = (_, Err _), Hm : st_mode _ = _, Ht : st_trace _ = _ |- _ =>
        destruct (lem _ _ _ E) as [Hm' Ht']; clear E;
        try rewrite Hm in Hm'; try rewrite Ht in Ht'; subst;
        exists []; rewrite app_nil_r;
        split; [assumption|]; split; [intros ? []|];
        split; [intros ? ?; discriminate|]; split; [intros ? ? []|];
        intros; assumption
    end ].

Lemma forward_in_val_events m new m' :
  Forall (val_event m) new -> In (EvForward m') new -> m' = m.
Proof.
  intros HF Hin. rewrite List.Forall_forall in HF. apply HF in Hin.
  unfold val_event in Hin. destruct Hin as [H|[H|[H|H]]]; inversion H; auto.
Qed.

Lemma set_mode_not_val_event m m' : ~ val_event m (EvSetMode m').
Proof. unfold val_event. intros [H|[H|[H|H]]]; discriminate H. Qed.

(** C4 (as the code does it): with [switch_to_eval], every forward pass
    made by [evaluate] runs in inference mode; when [evaluate] returns a
    record the classifier is back in training mode; when it raises after
    [self.eval()] (from the validation loader, the metric computation or
    the mean of the validation losses) the classifier is left in
    inference mode, and when it raises before, the mode is unchanged. *)
Theorem evaluate_mode_switch {Input Params : Type} forward (ld : loader Input) lossf
    (s s' : state Params) (r : res dict)
    (Hrun : evaluate forward ld lossf true s = (s', r)) :
  exists new, st_trace s' = st_trace s ++ new
  /\ (forall m, In (EvForward m) new -> m = Inference)
  /\ (forall d, r = Ok d -> st_mode s' = Training)
  /\ (forall e, r = Err e -> In (EvSetMode Inference) new -> st_mode s' = Inference)
  /\ (forall e, r = Err e -> ~ In (EvSetMode Inference) new -> st_mode s' = st_mode s).
Proof.
  unfold evaluate in Hrun.
  assert (Hm : st_mode s = st_mode s) by reflexivity.
  assert (Ht : st_trace s = st_trace s) by reflexivity.
  ro_step Hrun (pop_read_only (Params := Params) "train_loss"%string).
  ro_step Hrun (lift_read_only (Params := Params) (mean a)).
  ro_step Hrun (getitem_read_only (Params := Params) "target"%string).
  ro_step Hrun (getitem_read_only (Params := Params) "predicted"%string).
  ro_step Hrun (lift_read_only (Params := Params) (_compute_metrics a1 a2 true true)).
  ro_step Hrun (getitem_read_only (Params := Params) "target"%string).
  ro_step Hrun (getitem_read_only (Params := Params) "probs"%string).
  ro_step Hrun (lift_read_only (Params := Params) (_compute_metrics a4 a5 false true)).
  (* [self.eval()] *)
  bstep Hrun; [|simpl in E; discriminate E].
  simpl in E. unfold set_mode in E. injection E as <- _.
  (* the validation pass *)
  bstep Hrun.
  2:{ apply val_loop_frame in E. simpl in E.
      destruct E as (Hm9 & _ & _ & _ & vnew & Ht9 & HF). subst r.
      exists (EvSetMode Inference :: vnew). rewrite Ht9, Ht.
      split; [now rewrite <- app_assoc|].
      split; [|split; [intros ? Hd; discriminate Hd|split; [intros; exact Hm9|]]].
      - intros m [Hin|Hin]; [discriminate Hin|].
        exact (forward_in_val_events _ _ _ HF Hin).
      - intros ? _ Hn. exfalso. apply Hn. left. reflexivity. }
  match type of E with _ = (_, Ok ?b) => destruct b as [[[ats aps] acs] ls] end.
  apply val_loop_frame in E. simpl in E.
  destruct E as (Hm9 & _ & _ & _ & vnew & Ht9 & HF).
  rewrite Ht in Ht9. clear Hm Ht.
  cbv beta iota zeta in Hrun.
  (* the remaining read-only steps: validation metrics and mean loss *)
  assert (Hfin : forall s9 : state Params,
    st_mode s9 = Inference ->
    st_trace s9 = (st_trace s ++ [EvSetMode Inference]) ++ vnew ->
    exists new, st_trace s9 = st_trace s ++ new
    /\ (forall m, In (EvForward m) new -> m = Inference)
    /\ In (EvSetMode Inference) new).
  { intros s9 Hm Ht. exists (EvSetMode Inference :: vnew).
    split; [rewrite Ht; now rewrite <- app_assoc|]. split; [|left; reflexivity].
    intros m [Hin|Hin]; [discriminate Hin|].
    exact (forward_in_val_events _ _ _ HF Hin). }
  do 3 (bstep Hrun;
    [ destruct (lift_read_only _ _ _ _ E) as [Hm' Ht']; clear E;
      rewrite Hm9 in Hm'; rewrite Ht9 in Ht'; clear Hm9 Ht9;
      rename Hm' into Hm9; rename Ht' into Ht9
    | destruct (lift_read_only _ _ _ _ E) as [Hm' Ht']; clear E;
      rewrite Hm9 in Hm'; rewrite Ht9 in Ht'; subst r;
      destruct (Hfin s' Hm' Ht') as (new & Hn1 & Hn2 & Hn3);
      exists new; split; [exact Hn1|]; split; [exact Hn2|];
      split; [intros ? Hd; discriminate Hd|]; split; [intros; exact Hm'|];
      intros ? _ Hn; contradiction ]).
  (* [self.train()], logging, cache reset *)
  cbv [bind set_mode _log_and_reset _reset_predictions_cache emit set_preds ret] in Hrun.
  simpl in Hrun. injection Hrun as <- <-. simpl.
  match goal with
  | |- exists new, ((((?t ++ [EvSetMode Training]) ++ [?l1]) ++ [?l2]) ++ [EvResetCache])
                   = _ ++ new /\ _ =>
      exists ((EvSetMode Inference :: vnew) ++ [EvSetMode Training; l1; l2; EvResetCache])
  end.
  split; [rewrite Ht9; now rewrite <- !app_assoc|].
  split; [|split; [reflexivity|split; intros ? Hd; discriminate Hd]].
  intros m Hin. apply in_app_or in Hin. destruct Hin as [[Hin|Hin]|Hin].
  - discriminate Hin.
  - exact (forward_in_val_events _ _ _ HF Hin).
  - simpl in Hin. destruct Hin as [H|[H|[H|[H|[]]]]]; discriminate H.
Qed.

Lemma evaluate_mode_switch_witness :
  evaluate ex_forward [Ok ex_batch] (Some ex_loss) true (ex_state ex_trained_preds)
    = (fst (evaluate ex_forward [Ok ex_batch] (Some ex_loss) true (ex_state ex_trained_preds)),
       snd (evaluate ex_forward [Ok ex_batch] (Some ex_loss) true (ex_state ex_trained_preds)))
  /\ exists new,
    st_trace (fst (evaluate ex_forward [Ok ex_batch] (Some ex_loss) true (ex_state ex_trained_preds)))
      = st_trace (ex_state ex_trained_preds) ++ new
  /\ (forall m, In (EvForward m) new -> m = Inference)
  /\ (forall d, snd (evaluate ex_forward [Ok ex_batch] (Some ex_loss) true (ex_state ex_trained_preds))
                = Ok d ->
        st_mode (fst (evaluate ex_forward [Ok ex_batch] (Some ex_loss) true (ex_state ex_trained_preds)))
        = Training)
  /\ (forall e, snd (evaluate ex_forward [Ok ex_batch] (Some ex_loss) true (ex_state ex_trained_preds))
                = Err e -> In (EvSetMode Inference) new ->
        st_mode (fst (evaluate ex_forward [Ok ex_batch] (Some ex_loss) true (ex_state ex_trained_preds)))
        = Inference)
  /\ (forall e, snd (evaluate ex_forward [Ok ex_batch] (Some ex_loss) true (ex_state ex_trained_preds))
                = Err e -> ~ In (EvSetMode Inference) new ->
        st_mode (fst (evaluate ex_forward [Ok ex_batch] (Some ex_loss) true (ex_state ex_trained_preds)))
        = st_mode (ex_state ex_trained_preds)).
Proof.
  assert (Hrun : evaluate ex_forward [Ok ex_batch] (Some ex_loss) true (ex_state ex_trained_preds)
    = (fst (evaluate ex_forward [Ok ex_batch] (Some ex_loss) true (ex_state ex_trained_preds)),
       snd (evaluate ex_forward [Ok ex_batch] (Some ex_loss) true (ex_state ex_trained_preds))))
    by (vm_compute; reflexivity).
  split; [exact Hrun|].
  exact (evaluate_mode_switch ex_forward [Ok ex_batch] (Some ex_loss) _ _ _ Hrun).
Defined.

(** C4, refuted as stated: when the validation loader raises during the
    pass, [evaluate] propagates the exception and the classifier stays in
    inference mode ([self.train()] is not reached). *)
Lemma evaluate_source_error_keeps_inference :
  snd (evaluate ex_forward [Err SourceError] (Some ex_loss) true (ex_state ex_trained_preds))
    = Err SourceError
  /\ st_mode (fst (evaluate ex_forward [Err SourceError] (Some ex_loss) true
                            (ex_state ex_trained_preds))) = Inference.
Proof. split; vm_compute; reflexivity. Qed.

(** The validation pass over batches that all load: its buffers are the
    given ones extended, batch after batch, by the targets, the scores of
    the current parameters and mode, their classes and the losses. *)
Lemma val_loop_buffers {Input Params : Type} forward (bs : list (batch Input)) lossf
    (acc : val_buffers) (s : state Params) :
  snd (val_loop forward (length bs) (map Ok bs) lossf acc s)
  = Ok (acc.1.1.1 ++ concat (map b_targets bs),
        acc.1.1.2 ++ concat (map (fun b => forward (st_params s) (st_mode s) (b_inputs b)) bs),
        acc.1.2 ++ concat (map (fun b => _get_classes (forward (st_params s) (st_mode s) (b_inputs b))) bs),
        acc.2 ++ match lossf with
                 | Some f => map (fun b => f (forward (st_params s) (st_mode s) (b_inputs b))
                                             (b_targets b)) bs
                 | None => []
                 end).
Proof.
  revert acc s. induction bs as [|b bs IH]; intros acc s.
  - destruct acc as [[[ats aps] acs] ls].
    destruct lossf; simpl; rewrite !app_nil_r; reflexivity.
  - destruct acc as [[[ats aps] acs] ls].
    destruct lossf as [f|]; cbn [length map val_loop];
      cbv [bind _get_inputs emit predict get ret]; cbn beta iota;
      rewrite IH; simpl; rewrite <- !app_assoc; reflexivity.
Qed.

(** C8: the validation pass of [evaluate] leaves the shared prediction
    cache as it is, whatever happens in it, and collects targets, scores,
    classes and losses of every batch into the call's local buffers; when
    [evaluate] returns, the shared cache has been reset. *)
Theorem evaluate_local_buffers {Input Params : Type} forward (ld : loader Input) lossf
    switch_to_eval (s : state Params) :
  (forall n (it : loader Input) acc (s1 : state Params),
     st_preds (fst (val_loop forward n it lossf acc s1)) = st_preds s1)
  /\ (forall (bs : list (batch Input)) (s1 : state Params),
     snd (val_loop forward (length bs) (map Ok bs) lossf ([], [], [], []) s1)
     = Ok (concat (map b_targets bs),
           concat (map (fun b => forward (st_params s1) (st_mode s1) (b_inputs b)) bs),
           concat (map (fun b => _get_classes (forward (st_params s1) (st_mode s1) (b_inputs b))) bs),
           match lossf with
           | Some f => map (fun b => f (forward (st_params s1) (st_mode s1) (b_inputs b))
                                       (b_targets b)) bs
           | None => []
           end))
  /\ match snd (evaluate forward ld lossf switch_to_eval s) with
     | Ok _ => st_preds (fst (evaluate forward ld lossf switch_to_eval s)) = empty_predictions
     | Err _ => True
     end.
Proof.
  split; [|split].
  - intros n it acc s1. destruct (val_loop forward n it lossf acc s1) as [s2 r] eqn:E.
    apply val_loop_frame in E. simpl. tauto.
  - intros bs s1. exact (val_loop_buffers forward bs lossf ([], [], [], []) s1).
  - destruct (evaluate forward ld lossf switch_to_eval s) as [s' r] eqn:Hrun. simpl.
    destruct r as [d|e]; [|exact I].
    unfold evaluate in Hrun.
    do 10 drive Hrun.
    match goal with
    | Hv : val_loop _ _ _ _ _ _ = (_, Ok ?b) |- _ => destruct b as [[[ats aps] acs] ls]
    end.
    cbv beta iota zeta in Hrun.
    do 4 drive Hrun.
    cbv [bind _log_and_reset _reset_predictions_cache emit set_preds ret] in Hrun.
    simpl in Hrun. injection Hrun as <- _. reflexivity.
Qed.

(* ------------------------------------------------------------------ *)
(** ** The ROC curve on a single-class target set *)

Lemma nat2Q_S (i : nat) : Sk.nat2Q (S i) == Sk.nat2Q i + 1.
Proof. unfold Sk.nat2Q. rewrite Nat2Z.inj_succ. unfold Z.succ. now rewrite inject_Z_plus. Qed.

Lemma nat2Q_le (i j : nat) : (i <= j)%nat -> Sk.nat2Q i <= Sk.nat2Q j.
Proof. intros H. unfold Sk.nat2Q. rewrite <- Zle_Qle. lia. Qed.

Lemma nat2Q_ge1 (i : nat) : 1 <= Sk.nat2Q (S i).
Proof. change 1 with (Sk.nat2Q 1). apply nat2Q_le. lia. Qed.

Lemma clf_points_nonempty (l : list (Q * Q)) i tp :
  l <> [] -> Sk.clf_points i tp l <> [].
Proof.
  revert i tp. induction l as [|[t s] rest IH]; intros i tp Hne; [contradiction|].
  destruct rest as [|[t' s'] rest']; simpl; [discriminate|].
  destruct (Qeq_bool s s'); [apply IH; discriminate|discriminate].
Qed.

(** Only positive targets: every false-positive count is 0. *)
Lemma clf_points_all_pos (l : list (Q * Q)) i tp :
  Forall (fun p => Sk.is_pos p.1 = true) l -> tp == Sk.nat2Q i ->
  Forall (fun p => Sk.fps_of p == 0) (Sk.clf_points i tp l).
Proof.
  revert i tp. induction l as [|[t s] rest IH]; intros i tp Hall Htp; [constructor|].
  inversion Hall as [|? ? Ht Hrest]; subst. simpl in Ht.
  assert (Htp' : tp + (if Sk.is_pos t then 1 else 0) == Sk.nat2Q (S i))
    by (rewrite Ht, Htp, nat2Q_S; reflexivity).
  destruct rest as [|[t' s'] rest'].
  - simpl. rewrite Ht. constructor; [|constructor].
    unfold Sk.fps_of. simpl. rewrite Htp, nat2Q_S. ring.
  - cbn [Sk.clf_points]. destruct (Qeq_bool s s').
    + apply IH; assumption.
    + constructor; [|apply IH; assumption].
      unfold Sk.fps_of. simpl. rewrite Htp'. ring.
Qed.

Definition fps_le (a b : Q * Q * Q) : Prop := Sk.fps_of a <= Sk.fps_of b.

(** Only negative targets: every true-positive count is 0 and the
    false-positive counts grow from [i + 1] on. *)
Lemma clf_points_all_neg (l : list (Q * Q)) i tp :
  Forall (fun p => Sk.is_pos p.1 = false) l -> tp == 0 ->
  StronglySorted fps_le (Sk.clf_points i tp l)
  /\ Forall (fun p => Sk.nat2Q (S i) <= Sk.fps_of p /\ Sk.tps_of p == 0)
            (Sk.clf_points i tp l).
Proof.
  revert i tp. induction l as [|[t s] rest IH]; intros i tp Hall Htp;
    [split; constructor|].
  inversion Hall as [|? ? Ht Hrest]; subst. simpl in Ht.
  assert (Htp' : tp + (if Sk.is_pos t then 1 else 0) == 0)
    by (rewrite Ht, Htp; reflexivity).
  assert (Hpt : Sk.nat2Q (S i) <= Sk.fps_of (Sk.nat2Q (S i) - (tp + (if Sk.is_pos t then 1 else 0)),
                                             tp + (if Sk.is_pos t then 1 else 0), s)
                /\ Sk.tps_of (Sk.nat2Q (S i) - (tp + (if Sk.is_pos t then 1 else 0)),
                              tp + (if Sk.is_pos t then 1 else 0), s) == 0).
  { unfold Sk.fps_of, Sk.tps_of. simpl. rewrite Htp'. split; [|reflexivity].
    rewrite Qle_minus_iff. ring_simplify. apply Qle_refl. }
  destruct rest as [|[t' s'] rest'].
  - simpl. split; [repeat constructor|constructor; [exact Hpt|constructor]].
  - destruct (IH (S i) _ Hrest Htp') as [Hss Hge].
    assert (Hge' : Forall (fun p => Sk.nat2Q (S i) <= Sk.fps_of p /\ Sk.tps_of p == 0)
                          (Sk.clf_points (S i) (tp + (if Sk.is_pos t then 1 else 0))
                                         ((t', s') :: rest'))).
    { eapply Forall_impl; [exact Hge|]. intros p [H1 H2]. split; [|exact H2].
      eapply Qle_trans; [|exact H1]. apply nat2Q_le. lia. }
    cbn [Sk.clf_points]. destruct (Qeq_bool s s').
    + split; assumption.
    + split.
      * constructor; [exact Hss|].
        eapply Forall_impl; [exact Hge|]. intros p [H1 _]. unfold fps_le.
        unfold Sk.fps_of at 1. simpl. rewrite Htp'.
        eapply Qle_trans; [|exact H1].
        rewrite Qle_minus_iff. rewrite nat2Q_S. ring_simplify. discriminate.
      * constructor; [exact Hpt|exact Hge'].
Qed.

Lemma keep_from_sub (rest : list (Q * Q * Q)) a b :
  incl (Sk.keep_from a b rest) (b :: rest)
  /\ (StronglySorted fps_le (b :: rest) -> StronglySorted fps_le (Sk.keep_from a b rest)).
Proof.
  revert a b. induction rest as [|c rest' IH]; intros a b.
  - simpl. split; [apply incl_refl|intros H; exact H].
  - cbn [Sk.keep_from]. destruct (IH b c) as [Hinc Hss]. split.
    + destruct (negb _ || negb _); simpl.
      * intros x [->|Hx]; [left; reflexivity|right; now apply Hinc].
      * intros x Hx. right. now apply Hinc.
    + intros Hs. inversion Hs as [|? ? Hs' Hb]; subst.
      specialize (Hss Hs').
      destruct (negb _ || negb _); simpl; [|exact Hss].
      constructor; [exact Hss|].
      apply List.Forall_forall. intros x Hx. rewrite List.Forall_forall in Hb.
      apply Hb. now apply Hinc.
Qed.

Lemma drop_intermediate_sub (l : list (Q * Q * Q)) :
  incl (Sk.drop_intermediate l) l
  /\ (StronglySorted fps_le l -> StronglySorted fps_le (Sk.drop_intermediate l))
  /\ (l <> [] -> Sk.drop_intermediate l <> []).
Proof.
  destruct l as [|a [|b [|c rest]]]; simpl;
    try (split; [apply incl_refl|split; [auto|auto]]).
  destruct (keep_from_sub (c :: rest) a b) as [Hinc Hss]. split; [|split].
  - intros x [->|Hx]; [left; reflexivity|right; now apply Hinc].
  - intros Hs. inversion Hs as [|? ? Hs' Ha]; subst. constructor; [now apply Hss|].
    apply List.Forall_forall. intros x Hx. rewrite List.Forall_forall in Ha.
    apply Ha. now apply Hinc.
  - discriminate.
Qed.

Lemma Forall_incl {A} (P : A -> Prop) (l l' : list A) :
  incl l' l -> Forall P l -> Forall P l'.
Proof.
  intros Hi H. apply List.Forall_forall. intros x Hx.
  rewrite List.Forall_forall in H. now apply H, Hi.
Qed.

Lemma insert_desc_Forall (P : Q * Q -> Prop) x (l : list (Q * Q)) :
  P x -> Forall P l -> Forall P (Sk.insert_desc x l).
Proof.
  intros Hx. induction 1 as [|y l Hy Hl IH]; simpl; [constructor; auto|].
  destruct (Qltb y.2 x.2); repeat constructor; auto.
Qed.

Lemma sort_desc_Forall (P : Q * Q -> Prop) (l : list (Q * Q)) :
  Forall P l -> Forall P (Sk.sort_desc l).
Proof.
  induction 1; simpl; [constructor|]. now apply insert_desc_Forall.
Qed.

Lemma insert_desc_nonempty x (l : list (Q * Q)) : Sk.insert_desc x l <> [].
Proof. destruct l; simpl; [discriminate|]. destruct (Qltb _ _); discriminate. Qed.

Lemma sort_desc_nonempty (l : list (Q * Q)) : l <> [] -> Sk.sort_desc l <> [].
Proof. destruct l; [contradiction|]. intros _. apply insert_desc_nonempty. Qed.

Lemma zip_Forall_fst (P : Q -> Prop) (t s : list Q) :
  Forall P t -> Forall (fun p => P p.1) (zip t s).
Proof.
  revert s. induction t as [|x t IH]; intros s H; [constructor|].
  destruct s as [|y s]; simpl; [constructor|].
  inversion H; subst. constructor; [assumption|now apply IH].
Qed.

Lemma zip_nonempty (t s : list Q) :
  t <> [] -> length s = length t -> zip t s <> [].
Proof.
  destruct t, s; simpl; intros; try discriminate; try contradiction.
Qed.

(** stdpp's [last] of a list whose elements all satisfy [P]. *)
Lemma last_Forall {A} (P : A -> Prop) (xs : list A) :
  Forall P xs -> xs <> [] -> exists l, last xs = Some l /\ P l.
Proof.
  induction 1 as [|x xs Hx Hxs IH]; intros Hne; [exfalso; apply Hne; reflexivity|].
  destruct xs as [|y ys]; [exists x; split; [reflexivity|exact Hx]|].
  destruct IH as (l & Hl & Pl); [discriminate|]. exists l. split; [exact Hl|exact Pl].
Qed.

Lemma rate_length (xs : list Q) : length (Sk.rate xs) = length xs.
Proof.
  unfold Sk.rate. destruct (last xs) as [l|] eqn:E.
  - destruct (Qle_bool l 0); apply length_map.
  - destruct xs as [|x xs]; [reflexivity|].
    exfalso. destruct (last_Forall (fun _ => True) (x :: xs)) as (l & Hl & _);
      [apply List.Forall_forall; auto|discriminate|congruence].
Qed.

(** All counts zero: the rate is an array of nan. *)
Lemma rate_zero (xs : list Q) :
  Forall (fun x => x == 0) xs -> xs <> [] -> Sk.rate xs = map (fun _ => NaN) xs.
Proof.
  intros H Hne. destruct (last_Forall _ xs H Hne) as (l & Hl & Hz).
  unfold Sk.rate. rewrite Hl.
  replace (Qle_bool l 0) with true; [reflexivity|].
  symmetry. apply Qle_bool_iff. rewrite Hz. apply Qle_refl.
Qed.

(** A positive last count: the counts divided by it. *)
Lemma rate_pos (xs : list Q) (l : Q) :
  last xs = Some l -> 0 < l -> Sk.rate xs = map (fun x => Num (x / l)) xs.
Proof.
  intros Hl Hpos. unfold Sk.rate. rewrite Hl.
  replace (Qle_bool l 0) with false; [reflexivity|].
  symmetry. destruct (Qle_bool l 0) eqn:E; [|reflexivity].
  apply Qle_bool_iff in E. exfalso. apply (Qlt_not_le _ _ Hpos E).
Qed.

Lemma trapz_nan_x (y x : list pyfloat) :
  (2 <= length y)%nat -> (2 <= length x)%nat -> Forall (fun v => v = NaN) x ->
  Sk.trapz y x = NaN.
Proof.
  intros Hy Hx HF.
  destruct y as [|y0 [|y1 y']]; simpl in Hy; try lia.
  destruct x as [|x0 [|x1 x']]; simpl in Hx; try lia.
  inversion HF as [|? ? H0 HF']; subst. inversion HF'; subst. reflexivity.
Qed.

Lemma trapz_nan_y (y x : list pyfloat) :
  (2 <= length y)%nat -> (2 <= length x)%nat -> Forall (fun v => v = NaN) y ->
  Sk.trapz y x = NaN.
Proof.
  intros Hy Hx HF.
  destruct y as [|y0 [|y1 y']]; simpl in Hy; try lia.
  destruct x as [|x0 [|x1 x']]; simpl in Hx; try lia.
  inversion HF as [|? ? H0 HF']; subst. inversion HF'; subst. simpl.
  destruct (fop Qminus x1 x0); reflexivity.
Qed.

Lemma diff_nan_no_neg (x : list pyfloat) :
  Forall (fun v => v = NaN) x ->
  existsb (fun d => py_lt d (Num 0)) (Sk.diff x) = false.
Proof.
  induction 1 as [|v x Hv Hx IH]; [reflexivity|].
  destruct x as [|w x]; [reflexivity|]. subst v.
  cbn [Sk.diff]. inversion Hx; subst. simpl. exact IH.
Qed.

Lemma diff_sorted_no_neg (xs : list Q) (l : Q) :
  Sorted Qle xs -> 0 < l ->
  existsb (fun d => py_lt d (Num 0)) (Sk.diff (map (fun x => Num (x / l)) xs)) = false.
Proof.
  intros Hs Hl. induction Hs as [|a xs Hs IH Hhd]; [reflexivity|].
  destruct xs as [|b xs]; [reflexivity|].
  inversion Hhd as [|? ? Hab]; subst.
  change (Sk.diff (map (fun x => Num (x / l)) (a :: b :: xs)))
    with (fop Qminus (Num (b / l)) (Num (a / l)) :: Sk.diff (map (fun x => Num (x / l)) (b :: xs))).
  transitivity (py_lt (fop Qminus (Num (b / l)) (Num (a / l))) (Num 0)
                || existsb (fun d => py_lt d (Num 0))
                           (Sk.diff (map (fun x => Num (x / l)) (b :: xs))));
    [reflexivity|].
  rewrite IH, orb_false_r. simpl. apply Qltb_false.
  assert (E : b / l - a / l == (b - a) * / l) by (unfold Qdiv; ring). rewrite E.
  apply Qmult_le_0_compat.
  - apply Qle_minus_iff in Hab. exact Hab.
  - apply Qlt_le_weak. now apply Qinv_lt_0_compat.
Qed.

Lemma ss_map_fps (l : list (Q * Q * Q)) :
  StronglySorted fps_le l -> Sorted Qle (map Sk.fps_of l).
Proof.
  induction 1 as [|a l Hss IH Hf]; simpl; constructor; [exact IH|].
  destruct l as [|b l]; simpl; constructor.
  inversion Hf; subst. assumption.
Qed.

Lemma last_cons_nonempty {A} (x : A) (xs : list A) :
  xs <> [] -> last (x :: xs) = last xs.
Proof. destruct xs; [contradiction|reflexivity]. Qed.

(** On a nonempty target set with a single class, [roc_curve] succeeds
    and [auc] of its curve is nan. *)
Lemma roc_auc_single_class (targets probs : list Q) :
  targets <> [] -> length probs = length targets ->
  Forall (fun t => t = 0) targets \/ Forall (fun t => t = 1) targets ->
  exists fpr tpr, Sk.roc_curve targets probs = Ok (fpr, tpr) /\ Sk.auc fpr tpr = Ok NaN.
Proof.
  intros Hne Hlen Hone. unfold Sk.roc_curve. rewrite Hlen, Nat.eqb_refl. simpl negb.
  cbv iota.
  assert (Hl : Sk.sort_desc (zip targets probs) <> [])
    by (apply sort_desc_nonempty, zip_nonempty; assumption).
  destruct (Sk.clf_points 0 0 (Sk.sort_desc (zip targets probs))) as [|p0 ps] eqn:Epts;
    [exfalso; exact (clf_points_nonempty _ 0 0 Hl Epts)|].
  destruct (drop_intermediate_sub (p0 :: ps)) as (Hinc & Hss & Hne').
  assert (Hpts : Sk.drop_intermediate (p0 :: ps) <> []) by (apply Hne'; discriminate).
  remember (Sk.drop_intermediate (p0 :: ps)) as pts eqn:Ep.
  assert (Hlen2 : (2 <= length (0%Q :: map Sk.fps_of pts))%nat).
  { destruct pts; [contradiction|]. simpl. lia. }
  do 2 eexists. split; [reflexivity|].
  unfold Sk.auc. rewrite !rate_length. simpl length. rewrite !length_map, Nat.eqb_refl.
  simpl negb. cbv iota.
  replace (Nat.ltb (S (length pts)) 2) with false
    by (symmetry; apply Nat.ltb_ge; simpl in Hlen2; rewrite length_map in Hlen2; lia).
  destruct Hone as [Hneg | Hpos].
  - (* only negatives: tpr is nan, fpr increasing *)
    assert (Hfl : Forall (fun p => Sk.is_pos p.1 = false) (Sk.sort_desc (zip targets probs))).
    { apply sort_desc_Forall, (zip_Forall_fst (fun t => Sk.is_pos t = false)).
      eapply Forall_impl; [exact Hneg|]. intros t ->. reflexivity. }
    destruct (clf_points_all_neg _ 0 0 Hfl (Qeq_refl 0)) as [S1 F1].
    rewrite Epts in S1, F1.
    assert (F2 : Forall (fun p => Sk.nat2Q 1 <= Sk.fps_of p /\ Sk.tps_of p == 0) pts)
      by (subst pts; exact (Forall_incl _ _ _ Hinc F1)).
    assert (S2 : StronglySorted fps_le pts) by (subst pts; now apply Hss).
    rewrite (rate_zero (0 :: map Sk.tps_of pts)).
    2:{ constructor; [reflexivity|]. apply Forall_map.
        eapply Forall_impl; [exact F2|]. intros p [_ H]. exact H. }
    2:{ discriminate. }
    destruct (last_Forall (fun x => 1 <= x) (map Sk.fps_of pts)) as (lst & Hlst & Hge).
    { apply Forall_map. eapply Forall_impl; [exact F2|]. intros p [H _]. exact H. }
    { destruct pts; [contradiction|discriminate]. }
    rewrite (rate_pos (0 :: map Sk.fps_of pts) lst).
    2:{ rewrite last_cons_nonempty; [exact Hlst|]. destruct pts; [contradiction|discriminate]. }
    2:{ eapply Qlt_le_trans; [|exact Hge]. reflexivity. }
    rewrite diff_sorted_no_neg.
    2:{ constructor; [now apply ss_map_fps|].
        destruct pts as [|p pts']; [constructor|]. simpl. constructor.
        inversion F2 as [|? ? [H _] _]; subst. eapply Qle_trans; [|exact H]. discriminate. }
    2:{ eapply Qlt_le_trans; [|exact Hge]. reflexivity. }
    f_equal. apply trapz_nan_y.
    + rewrite length_map. simpl in Hlen2 |- *. rewrite length_map in *. lia.
    + rewrite length_map. exact Hlen2.
    + apply List.Forall_forall. intros v Hv. apply in_map_iff in Hv.
      destruct Hv as (? & <- & _). reflexivity.
  - (* only positives: fpr is nan *)
    assert (Hfl : Forall (fun p => Sk.is_pos p.1 = true) (Sk.sort_desc (zip targets probs))).
    { apply sort_desc_Forall, (zip_Forall_fst (fun t => Sk.is_pos t = true)).
      eapply Forall_impl; [exact Hpos|]. intros t ->. reflexivity. }
    pose proof (clf_points_all_pos _ 0 0 Hfl (Qeq_refl 0)) as F1.
    rewrite Epts in F1.
    assert (F2 : Forall (fun p => Sk.fps_of p == 0) pts)
      by (subst pts; exact (Forall_incl _ _ _ Hinc F1)).
    assert (Hnan : Sk.rate (0 :: map Sk.fps_of pts) = map (fun _ => NaN) (0 :: map Sk.fps_of pts)).
    { apply rate_zero; [|discriminate]. constructor; [reflexivity|]. now apply Forall_map. }
    rewrite Hnan.
    assert (Hx : Forall (fun v => v = NaN) (map (fun _ : Q => NaN) (0 :: map Sk.fps_of pts))).
    { apply List.Forall_forall. intros v Hv. apply in_map_iff in Hv.
      destruct Hv as (? & <- & _). reflexivity. }
    rewrite (diff_nan_no_neg _ Hx). f_equal. apply trapz_nan_x.
    + rewrite rate_length. simpl in Hlen2 |- *. rewrite length_map in *. lia.
    + rewrite length_map. exact Hlen2.
    + exact Hx.
Qed.

(** C5 (as the code does it): on a nonempty target set with a single
    class (all 0.0 or all 1.0) and one score per target, the ranking
    metric does not fail: [_compute_metrics] returns the record holding
    only the auc, whose value is nan. *)
Theorem auc_single_class_nan (targets probs : list Q) (training : bool)
    (Hne : targets <> []) (Hlen : length probs = length targets)
    (Hone : Forall (fun t => t = 0) targets \/ Forall (fun t => t = 1) targets) :
  _compute_metrics targets probs false training
  = Ok [(((if training then "" else "val_") +:+ "auc")%string, NaN)].
Proof.
  destruct (roc_auc_single_class targets probs Hne Hlen Hone)
    as (fpr & tpr & Hroc & Hauc).
  unfold _compute_metrics. rewrite Hroc, Hauc.
  destruct training; reflexivity.
Qed.

Lemma auc_single_class_nan_witness :
  ([1; 1] <> [] /\ length [3#10; 8#10] = length [1; 1]
   /\ (Forall (fun t => t = 0) [1; 1] \/ Forall (fun t => t = 1) [1; 1]))
  /\ _compute_metrics [1; 1] [3#10; 8#10] false false
     = Ok [((("val_")%string +:+ "auc")%string, NaN)].
Proof.
  assert (Hne : [1; 1] <> @nil Q) by discriminate.
  assert (Hlen : length [3#10; 8#10] = length [1; 1]) by reflexivity.
  assert (Hone : Forall (fun t => t = 0) [1; 1] \/ Forall (fun t => t = 1) [1; 1])
    by (right; repeat constructor).
  split; [auto|].
  exact (auc_single_class_nan [1; 1] [3#10; 8#10] false Hne Hlen Hone).
Defined.

(** C5, refuted as stated: with only positive validation targets the
    metric computation returns val_auc = nan instead of failing. *)
Lemma auc_single_class_returns_nan :
  _compute_metrics [1; 1] [3#10; 8#10] false false = Ok [("val_auc"%string, NaN)].
Proof. vm_compute. reflexivity. Qed.


(* ------------------------------------------------------------------ *)
(** ** The training epoch *)

Lemma accumulate_target (targets classes : list Q) loss probs (p : gmap string (list Q)) :
  default [] (accumulate_results targets classes loss probs p !! "target"%string)
  = default [] (p !! "target"%string) ++ targets.
Proof.
  unfold accumulate_results.
  rewrite !lookup_insert_ne by discriminate. now rewrite lookup_insert_eq.
Qed.

Lemma accumulate_train_loss (targets classes : list Q) loss probs (p : gmap string (list Q)) :
  default [] (accumulate_results targets classes loss probs p !! "train_loss"%string)
  = default [] (p !! "train_loss"%string) ++ [loss].
Proof.
  unfold accumulate_results.
  rewrite lookup_insert_ne by discriminate. rewrite lookup_insert_eq. simpl.
  now rewrite !lookup_insert_ne by discriminate.
Qed.

Lemma train_batches_step {Input Params : Type} forward loss_fn optim_step n
    (b : batch Input) (it : loader Input) (s : state Params) :
  train_batches forward loss_fn optim_step (S n) (Ok b :: it) s
  = train_batches forward loss_fn optim_step n it (train_step_state forward loss_fn optim_step s b).
Proof. reflexivity. Qed.

Lemma train_batches_run {Input Params : Type} forward loss_fn optim_step
    (bs : list (batch Input)) (s : state Params) :
  exists s', train_batches forward loss_fn optim_step (length bs) (map Ok bs) s = (s', Ok tt)
  /\ trained_on optim_step bs s s'.
Proof.
  revert s. induction bs as [|b bs IH]; intros s.
  - exists s. split; [reflexivity|]. unfold trained_on. cbn [map concat fold_left length].
    rewrite !app_nil_r, Nat.add_0_r. repeat split; reflexivity.
  - cbn [length map]. rewrite train_batches_step.
    destruct (IH (train_step_state forward loss_fn optim_step s b))
      as (s' & Hrun & Hm & He & Ht & Hp & Htg & Hl).
    exists s'. split; [exact Hrun|]. unfold train_step_state in Hm, He, Ht, Hp, Htg, Hl.
    cbn [st_mode st_epoch st_trace st_params st_preds] in Hm, He, Ht, Hp, Htg, Hl.
    unfold trained_on. split; [exact Hm|]. split; [exact He|]. split; [|split; [|split]].
    + rewrite Ht. cbn [map concat]. unfold train_batch_events. rewrite <- !app_assoc. reflexivity.
    + rewrite Hp. reflexivity.
    + rewrite Htg, accumulate_target. cbn [map concat]. now rewrite <- app_assoc.
    + rewrite Hl, accumulate_train_loss, length_app. cbn [length]. lia.
Qed.

(** C2: over sources that each yield their batches, one training epoch
    reads every source fully (its [len] batches), the sources in list
    order, and for every batch fetches it, runs the network in the
    current mode, classifies the scores, zeroes the gradients, computes
    the loss, back-propagates, steps the optimizer and appends the batch
    to the shared cache. The parameters are threaded through all the
    batches of all the sources, in order, with no reset between sources. *)
Theorem train_epoch_sources_in_order {Input Params : Type} forward loss_fn optim_step
    (lds : list (list (batch Input))) (s : state Params) :
  exists s', train_epoch forward loss_fn optim_step (map (map Ok) lds) s = (s', Ok tt)
  /\ st_trace s' = st_trace s ++ concat (map (fun _ => train_batch_events (st_mode s)) (concat lds))
  /\ st_params s' = fold_left (fun w b => optim_step w (b_inputs b) (b_targets b))
                              (concat lds) (st_params s)
  /\ default [] (st_preds s' !! "target"%string)
     = default [] (st_preds s !! "target"%string) ++ concat (map b_targets (concat lds))
  /\ length (default [] (st_preds s' !! "train_loss"%string))
     = (length (default [] (st_preds s !! "train_loss"%string)) + length (concat lds))%nat
  /\ st_mode s' = st_mode s.
Proof.
  revert s. induction lds as [|bs lds IH]; intros s.
  - exists s. cbn [map concat fold_left length train_epoch].
    rewrite !app_nil_r, Nat.add_0_r. repeat split; reflexivity.
  - cbn [map train_epoch].
    destruct (train_batches_run forward loss_fn optim_step bs s)
      as (s1 & Hrun1 & Hm1 & He1 & Ht1 & Hp1 & Htg1 & Hl1).
    destruct (IH s1) as (s2 & Hrun2 & Ht2 & Hp2 & Htg2 & Hl2 & Hm2).
    exists s2. split.
    { unfold bind. rewrite length_map, Hrun1. exact Hrun2. }
    cbn [concat]. rewrite !map_app, !concat_app, fold_left_app.
    split; [|split; [|split; [|split]]].
    + rewrite Ht2, Ht1, Hm1. now rewrite app_assoc.
    + rewrite Hp2, Hp1. reflexivity.
    + rewrite Htg2, Htg1. now rewrite app_assoc.
    + rewrite Hl2, Hl1, length_app. lia.
    + now rewrite Hm2, Hm1.
Qed.

(* ------------------------------------------------------------------ *)
(** ** Epochs of [fit]: best loss, checkpoints and the returned value *)

Lemma save_events_app (t1 t2 : list event) :
  save_events (t1 ++ t2) = save_events t1 ++ save_events t2.
Proof.
  induction t1 as [|ev t1 IH]; [reflexivity|].
  destruct ev; try destruct log_grads; simpl; rewrite ?IH; reflexivity.
Qed.

Lemma val_losses_logged_app (t1 t2 : list event) :
  val_losses_logged (t1 ++ t2) = val_losses_logged t1 ++ val_losses_logged t2.
Proof.
  induction t1 as [|ev t1 IH]; [reflexivity|].
  destruct ev; try destruct log_grads; simpl; rewrite ?IH; reflexivity.
Qed.

Lemma quiet_silent (t : list event) :
  Forall quiet t -> save_events t = [] /\ val_losses_logged t = [].
Proof.
  induction 1 as [|ev t Hq _ IH]; [split; reflexivity|].
  destruct ev; simpl in Hq |- *; try contradiction; exact IH.
Qed.

Lemma train_batch_events_quiet {A : Type} m (bs : list A) :
  Forall quiet (concat (map (fun _ => train_batch_events m) bs)).
Proof.
  induction bs as [|b bs IH]; [constructor|].
  simpl. repeat (constructor; [exact I|]). exact IH.
Qed.

Lemma val_event_quiet m ev : val_event m ev -> quiet ev.
Proof. intros [->|[->|[->| ->]]]; exact I. Qed.

Lemma train_batches_err {Input Params : Type} forward loss_fn optim_step n e
    (it : loader Input) (s : state Params) :
  snd (train_batches forward loss_fn optim_step (S n) (Err e :: it) s) = Err e.
Proof. reflexivity. Qed.

(** A loader read to its length without an error yields only batches. *)
Lemma train_batches_ok_loader {Input Params : Type} forward loss_fn optim_step n
    (it : loader Input) (s s' : state Params) u :
  train_batches forward loss_fn optim_step n it s = (s', Ok u) -> n = length it ->
  exists bs, it = map Ok bs.
Proof.
  revert it s. induction n as [|n IH]; intros it s H Hn.
  - destruct it; [exists []; reflexivity|discriminate Hn].
  - destruct it as [|[b|e] it]; [discriminate Hn| |].
    + rewrite train_batches_step in H. simpl in Hn.
      destruct (IH _ _ H) as [bs ->]; [lia|]. exists (b :: bs). reflexivity.
    + pose proof (train_batches_err forward loss_fn optim_step n e it s) as Herr.
      rewrite H in Herr. discriminate Herr.
Qed.

(** A training epoch that completes writes no checkpoint and logs nothing. *)
Lemma train_epoch_quiet {Input Params : Type} forward loss_fn optim_step
    (lds : list (loader Input)) (s s' : state Params) u :
  train_epoch forward loss_fn optim_step lds s = (s', Ok u) ->
  exists new, st_trace s' = st_trace s ++ new /\ Forall quiet new.
Proof.
  revert s. induction lds as [|ld lds IH]; intros s H.
  - injection H as <- _. exists []. rewrite app_nil_r. split; [reflexivity|constructor].
  - cbn [train_epoch] in H. drive H.
    match goal with
    | E : train_batches _ _ _ _ _ _ = (?s1, Ok _) |- _ =>
        destruct (train_batches_ok_loader _ _ _ _ _ _ _ _ E eq_refl) as [bs ->];
        destruct (train_batches_run forward loss_fn optim_step bs s)
          as (s1' & Hrun & _ & _ & Ht1 & _);
        rewrite length_map, Hrun in E; injection E as <- _
    end.
    destruct (IH _ H) as (new & Ht2 & Hq).
    exists (concat (map (fun _ => train_batch_events (st_mode s)) bs) ++ new).
    split; [rewrite Ht2, Ht1; now rewrite app_assoc|].
    apply Forall_app. split; [apply train_batch_events_quiet|exact Hq].
Qed.

Lemma lift_ok {S A : Type} (x : res A) (s s' : S) a :
  lift x s = (s', Ok a) -> x = Ok a /\ s' = s.
Proof. intros H. injection H as <- ->. split; reflexivity. Qed.

Lemma dict_get_set_eq k v (d : dict) : dict_get (dict_set k v d) k = Some v.
Proof.
  induction d as [|[k' v'] d IH]; simpl; [now rewrite String.eqb_refl|].
  destruct (String.eqb k k') eqn:E; simpl; rewrite ?E; [reflexivity|exact IH].
Qed.

Lemma dict_get_set_ne k k' v (d : dict) :
  String.eqb k k' = false -> dict_get (dict_set k' v d) k = dict_get d k.
Proof.
  intros Hne. induction d as [|[k0 v0] d IH]; simpl.
  - now rewrite Hne.
  - destruct (String.eqb k' k0) eqn:E; simpl.
    + apply String.eqb_eq in E. subst k0. now rewrite Hne.
    + destruct (String.eqb k k0); [reflexivity|exact IH].
Qed.

Lemma compute_metrics_scores_val (t p : list Q) (d : dict) :
  _compute_metrics t p false false = Ok d -> exists a, d = [("val_auc"%string, a)].
Proof.
  unfold _compute_metrics.
  destruct (Sk.roc_curve t p) as [[fpr tpr]|e]; [|discriminate].
  destruct (Sk.auc fpr tpr) as [a|e]; intros H; inversion H; subst.
  exists a. reflexivity.
Qed.

Ltac ro_trace :=
  match goal with
  | E : _ = (_, Ok _), Ht : st_trace _ = _ |- _ =>
      let Ht' := fresh "Ht" in
      first [ destruct (pop_read_only _ _ _ _ E) as [_ Ht']
            | destruct (getitem_read_only _ _ _ _ E) as [_ Ht']
            | destruct (lift_read_only _ _ _ _ E) as [_ Ht'] ];
      try rewrite Ht in Ht'; clear E Ht
  end.

(** A call of [evaluate] that returns a record writes no checkpoint and
    hands exactly one validation record to the logger, whose [val_loss]
    is the one of the returned record, a number. *)
Lemma evaluate_ok_trace {Input Params : Type} forward (ld : loader Input) lossf
    switch_to_eval (s s' : state Params) d :
  evaluate forward ld lossf switch_to_eval s = (s', Ok d) ->
  exists new q, st_trace s' = st_trace s ++ new
  /\ save_events new = [] /\ val_losses_logged new = [Some (Num q)]
  /\ dict_get d "val_loss"%string = Some (Num q).
Proof.
  intros H. unfold evaluate in H.
  assert (Ht : st_trace s = st_trace s) by reflexivity.
  do 8 (drive H; ro_trace).
  drive H.
  match goal with
  | E : (if _ then _ else _) _ = (?s9, Ok _), Ht : st_trace _ = _ |- _ =>
      assert (Hq : exists n1, st_trace s9 = st_trace s ++ n1 /\ Forall quiet n1)
        by (destruct switch_to_eval; cbv [set_mode ret] in E; injection E as <- _;
            [exists [EvSetMode Inference]; simpl; rewrite Ht; split; [reflexivity|]
            |exists []; rewrite app_nil_r; split; [exact Ht|]];
            repeat constructor);
      clear E Ht
  end.
  drive H.
  match type of E with _ = (_, Ok ?b) => destruct b as [[[ats aps] acs] ls] end.
  apply val_loop_frame in E. destruct E as (_ & _ & _ & _ & vnew & Hv & HF).
  destruct Hq as (n1 & Ht1 & Hq1).
  cbv beta iota zeta in H.
  drive H. apply lift_ok in E. destruct E as [_ ->].
  drive H. apply lift_ok in E. destruct E as [Ecm1 ->].
  drive H. apply lift_ok in E. destruct E as [Emean ->].
  destruct (compute_metrics_scores_val _ _ _ Ecm1) as [auc ->].
  match type of Emean with mean _ = Ok ?q => rename q into vloss end.
  assert (Hqv : Forall quiet vnew).
  { apply List.Forall_forall. intros ev Hin.
    exact (val_event_quiet _ _ (proj1 (List.Forall_forall _ _) HF ev Hin)). }
  destruct (quiet_silent _ Hq1) as [Hs1 Hl1]. destruct (quiet_silent _ Hqv) as [Hs2 Hl2].
  assert (Hget : forall cm : dict,
    dict_get (dict_set "val_auc"%string auc (dict_set "val_loss"%string (Num vloss) cm))
      "val_loss"%string = Some (Num vloss)).
  { intros cm. rewrite dict_get_set_ne by reflexivity. apply dict_get_set_eq. }
  cbv [bind set_mode _log_and_reset _reset_predictions_cache emit set_preds ret] in H.
  destruct switch_to_eval; cbn [st_trace] in H; injection H as <- <-;
    eexists; exists vloss;
    (split; [cbn [st_trace]; rewrite Hv, Ht1; rewrite <- !app_assoc; reflexivity|]);
    rewrite !save_events_app, !val_losses_logged_app, Hs1, Hl1, Hs2, Hl2;
    cbn [save_events val_losses_logged app]; rewrite Hget; repeat split.
Qed.

(** The epochs [e+1 .. e+k] of [fit], from the best loss [best]. *)
Lemma fit_epochs_run {Input Params : Type} forward loss_fn optim_step fold_number
    (lds : list (loader Input)) (vld : loader Input) e k best (s s' : state Params) r :
  fit_epochs forward loss_fn optim_step fold_number e k lds vld best s = (s', Ok r) ->
  exists new vs, st_trace s' = st_trace s ++ new
  /\ length vs = k
  /\ val_losses_logged new = map (fun v => Some (Num v)) vs
  /\ save_events new
     = imap (fun i v => (S (e + i), fold_number,
                         py_lt (Num v) (best_after best (firstn i vs)))) vs
  /\ r = best_after best vs.
Proof.
  revert e best s. induction k as [|k IH]; intros e best s H.
  - injection H as <- <-. exists [], []. rewrite app_nil_r. repeat split.
  - cbn [fit_epochs] in H.
    drive H. cbv [set_epoch] in E. injection E as <- _.
    drive H. apply train_epoch_quiet in E. destruct E as (n1 & Ht1 & Hq1).
    drive H. apply evaluate_ok_trace in E. destruct E as (n2 & q & Ht2 & Hs2 & Hl2 & Hget).
    drive H. rewrite Hget in E. cbv [lift] in E. injection E as <- <-.
    cbv beta zeta in H.
    drive H. cbv [save emit] in E. injection E as <- _.
    destruct (IH _ _ _ H) as (n3 & vs & Ht3 & Hlen & Hl3 & Hs3 & Hr).
    destruct (quiet_silent _ Hq1) as [Hs1 Hl1].
    exists (n1 ++ n2 ++ [EvSave (S e) fold_number (py_lt (Num q) best)] ++ n3), (q :: vs).
    split; [|split; [|split; [|split]]].
    + rewrite Ht3. cbn [st_trace]. rewrite Ht2, Ht1. cbn [st_trace].
      now rewrite <- !app_assoc.
    + cbn [length]. now rewrite Hlen.
    + rewrite !val_losses_logged_app, Hl1, Hl2, Hl3. reflexivity.
    + rewrite !save_events_app, Hs1, Hs2, Hs3, imap_cons. cbn [save_events app].
      rewrite Nat.add_0_r. f_equal. apply imap_ext. intros i v _. cbn [compose].
      now rewrite Nat.add_succ_r.
    + exact Hr.
Qed.

(** For at least one epoch the best loss is the least validation loss. *)
Lemma best_after_min (vs : list Q) :
  vs <> [] ->
  exists m, best_after PInf vs = Num m /\ In m vs /\ Forall (fun v => m <= v) vs.
Proof.
  induction vs as [|x l IH] using rev_ind; [intros H; now contradiction H|intros _].
  unfold best_after. rewrite fold_left_app. cbn [fold_left].
  destruct l as [|y l'] eqn:El.
  - exists x. cbn [fold_left app]. split; [reflexivity|]. split; [left; reflexivity|].
    constructor; [apply Qle_refl|constructor].
  - rewrite <- El in *. destruct IH as (m & Hm & Hin & Hall); [subst l; discriminate|].
    unfold best_after in Hm. rewrite Hm. unfold py_min. cbn [py_lt].
    destruct (Qltb x m) eqn:Ex.
    + apply Qltb_iff in Ex. exists x. split; [reflexivity|].
      split; [apply in_or_app; right; left; reflexivity|].
      apply Forall_app. split; [|constructor; [apply Qle_refl|constructor]].
      apply List.Forall_forall. intros v Hv.
      apply Qle_trans with m; [apply Qlt_le_weak, Ex|].
      exact (proj1 (List.Forall_forall _ _) Hall v Hv).
    + apply Qltb_false in Ex. exists m. split; [reflexivity|].
      split; [apply in_or_app; left; exact Hin|].
      apply Forall_app. split; [exact Hall|constructor; [exact Ex|constructor]].
Qed.

(** C1: in a run of [fit] that returns [r], there is one validation loss
    per epoch, the [val_loss] of the validation record logged in that
    epoch; [best_loss] starts at +inf and becomes
    [min(best_loss, val_loss)] after each epoch; a checkpoint is written
    after every epoch [i+1] of the fold, with [is_best] true exactly when
    that epoch's validation loss is strictly below the best loss of the
    epochs before; and [r] is the final best loss, i.e. +inf for zero
    epochs and otherwise the least validation loss of the fold. *)
Theorem fit_best_loss {Input Params : Type} forward loss_fn optim_step fold_number
    (lds : list (loader Input)) (vld : loader Input) num_epochs
    (s s' : state Params) (r : pyfloat)
    (Hrun : fit forward loss_fn optim_step fold_number lds vld num_epochs s = (s', Ok r)) :
  exists new vs, st_trace s' = st_trace s ++ new
  /\ length vs = num_epochs
  /\ val_losses_logged new = map (fun v => Some (Num v)) vs
  /\ save_events new
     = imap (fun i v => (S i, fold_number, py_lt (Num v) (best_after PInf (firstn i vs)))) vs
  /\ r = best_after PInf vs
  /\ (num_epochs = O -> r = PInf)
  /\ (num_epochs <> O -> exists m, r = Num m /\ In m vs /\ Forall (fun v => m <= v) vs).
Proof.
  unfold fit in Hrun. apply fit_epochs_run in Hrun.
  destruct Hrun as (new & vs & Ht & Hlen & Hl & Hs & Hr).
  exists new, vs. split; [exact Ht|]. split; [exact Hlen|]. split; [exact Hl|].
  split; [exact Hs|]. split; [exact Hr|]. split.
  - intros H0. rewrite H0 in Hlen. destruct vs; [exact Hr|discriminate Hlen].
  - intros H0. rewrite Hr. apply best_after_min. intros Hnil. apply H0.
    rewrite <- Hlen, Hnil. reflexivity.
Qed.

Lemma fit_best_loss_witness :
  fit ex_forward ex_loss ex_step 0 [[Ok ex_batch]] [Ok ex_batch] 2 (ex_state empty_predictions)
    = (fst (fit ex_forward ex_loss ex_step 0 [[Ok ex_batch]] [Ok ex_batch] 2
              (ex_state empty_predictions)), Ok (Num (1#2)))
  /\ exists new vs,
    st_trace (fst (fit ex_forward ex_loss ex_step 0 [[Ok ex_batch]] [Ok ex_batch] 2
                     (ex_state empty_predictions)))
      = st_trace (ex_state empty_predictions) ++ new
  /\ length vs = 2%nat
  /\ val_losses_logged new = map (fun v => Some (Num v)) vs
  /\ save_events new
     = imap (fun i v => (S i, 0%nat, py_lt (Num v) (best_after PInf (firstn i vs)))) vs
  /\ Num (1#2) = best_after PInf vs
  /\ (2%nat = O -> Num (1#2) = PInf)
  /\ (2%nat <> O -> exists m, Num (1#2) = Num m /\ In m vs /\ Forall (fun v => m <= v) vs).
Proof.
  assert (H : fit ex_forward ex_loss ex_step 0 [[Ok ex_batch]] [Ok ex_batch] 2
                (ex_state empty_predictions)
              = (fst (fit ex_forward ex_loss ex_step 0 [[Ok ex_batch]] [Ok ex_batch] 2
                        (ex_state empty_predictions)), Ok (Num (1#2))))
    by (vm_compute; reflexivity).
  split; [exact H|].
  exact (fit_best_loss ex_forward ex_loss ex_step 0 [[Ok ex_batch]] [Ok ex_batch] 2
           (ex_state empty_predictions) _ _ H).
Defined.


Module NetFacts.
Import Net.
Local Open Scope nat_scope.

Lemma out_side_conv3 s x :
  1 <= s -> out_side 3 s 1 x = if x =? 0 then None else Some ((x - 1) / s + 1).
Proof.
  intros Hs. unfold out_side.
  destruct (s =? 0) eqn:E0; [apply Nat.eqb_eq in E0; lia|].
  destruct (x =? 0) eqn:Ex; [apply Nat.eqb_eq in Ex; subst x; reflexivity|].
  apply Nat.eqb_neq in Ex. cbn [orb Nat.eqb].
  destruct (x + 2 * 1 <? 3) eqn:E; [apply Nat.ltb_lt in E; lia|].
  do 3 f_equal. lia.
Qed.

Lemma out_side_conv1 s x :
  1 <= s -> out_side 1 s 0 x = if x =? 0 then None else Some ((x - 1) / s + 1).
Proof.
  intros Hs. unfold out_side.
  destruct (s =? 0) eqn:E0; [apply Nat.eqb_eq in E0; lia|].
  destruct (x =? 0) eqn:Ex; [apply Nat.eqb_eq in Ex; subst x; reflexivity|].
  apply Nat.eqb_neq in Ex. cbn [orb Nat.eqb].
  destruct (x + 2 * 0 <? 1) eqn:E; [apply Nat.ltb_lt in E; lia|].
  do 3 f_equal. lia.
Qed.

Lemma out_side_same x : 1 <= x -> out_side 3 1 1 x = Some x.
Proof.
  intros Hx. rewrite out_side_conv3 by lia.
  destruct (x =? 0) eqn:E; [apply Nat.eqb_eq in E; lia|].
  rewrite Nat.div_1_r. f_equal. lia.
Qed.

Lemma bdim_refl x : bdim x x = true.
Proof. unfold bdim. now rewrite Nat.eqb_refl. Qed.

Lemma stride_side_pos s x : 1 <= (x - 1) / s + 1.
Proof. lia. Qed.

(** A block after the first: stride 1, [planes] channels, no downsample. *)
Lemma block_plain m planes n h w :
  1 <= h -> 1 <= w -> bn_ok m n h w = true ->
  BasicBlock_forward m (BasicBlock planes planes 1 None) (S4 n planes h w)
  = Some (S4 n planes h w).
Proof.
  intros Hh Hw Hbn. unfold BasicBlock_forward, BasicBlock, conv3x3. cbn [bb_conv1 bb_bn1 bb_conv2 bb_bn2 bb_downsample module_fwd].
  rewrite Nat.eqb_refl, !out_side_same by assumption. simpl.
  rewrite Nat.eqb_refl, Hbn. simpl. rewrite Nat.eqb_refl, !out_side_same by assumption. simpl.
  rewrite Nat.eqb_refl, Hbn. simpl. rewrite !bdim_refl. reflexivity.
Qed.

Lemma blocks_plain m planes (l : list nat) n h w :
  1 <= h -> 1 <= w -> bn_ok m n h w = true ->
  blocks_fwd m (map (fun _ => BasicBlock planes planes 1 None) l) (S4 n planes h w)
  = Some (S4 n planes h w).
Proof.
  intros Hh Hw Hbn. induction l as [|x l IH]; [reflexivity|].
  cbn [map blocks_fwd]. rewrite block_plain by assumption. exact IH.
Qed.

(** The first block of [_make_layer]: the convolutions use [stride], and
    the downsample branch (present when the stride or the number of
    channels changes) gives the residual the same shape. *)
Lemma block_first m inplanes planes stride n c h w :
  1 <= stride ->
  BasicBlock_forward m
    (BasicBlock inplanes planes stride
       (if negb (stride =? 1) || negb (inplanes =? planes * expansion)
        then Some [Conv2d inplanes (planes * expansion) 1 stride 0;
                   BatchNorm2d (planes * expansion)]
        else None))
    (S4 n c h w)
  = if (c =? inplanes) && negb (h =? 0) && negb (w =? 0)
       && bn_ok m n ((h - 1) / stride + 1) ((w - 1) / stride + 1)
    then Some (S4 n planes ((h - 1) / stride + 1) ((w - 1) / stride + 1)) else None.
Proof.
  intros Hs. unfold BasicBlock_forward, BasicBlock, conv3x3.
  cbn [bb_conv1 bb_bn1 bb_conv2 bb_bn2 bb_downsample module_fwd].
  destruct (c =? inplanes) eqn:Ec; [|reflexivity].
  apply Nat.eqb_eq in Ec. subst c.
  rewrite !out_side_conv3 by lia.
  destruct (h =? 0) eqn:Eh; [reflexivity|]. destruct (w =? 0) eqn:Ew; [reflexivity|].
  cbn [negb andb mbind option_bind].
  set (h' := (h - 1) / stride + 1). set (w' := (w - 1) / stride + 1).
  cbn. rewrite Nat.eqb_refl. cbn [andb].
  destruct (bn_ok m n h' w') eqn:Eb; [|reflexivity]. cbn.
  rewrite Nat.eqb_refl, !out_side_same by (unfold h', w'; lia). cbn.
  rewrite Nat.eqb_refl, Eb. cbn.
  destruct (negb (stride =? 1) || negb (inplanes =? planes * expansion)) eqn:Ed.
  - cbn. rewrite Nat.eqb_refl, !out_side_conv1, Eh, Ew by lia. cbn.
    fold h' w'. rewrite Nat.eqb_refl, Eb. cbn.
    unfold expansion. rewrite Nat.mul_1_r, !bdim_refl. reflexivity.
  - apply orb_false_iff in Ed. destruct Ed as [E1 E2].
    apply negb_false_iff, Nat.eqb_eq in E1, E2. subst stride.
    unfold expansion in E2. rewrite Nat.mul_1_r in E2. subst planes.
    apply Nat.eqb_neq in Eh, Ew.
    assert (Hh : h' = h) by (unfold h'; rewrite Nat.div_1_r; lia).
    assert (Hw : w' = w) by (unfold w'; rewrite Nat.div_1_r; lia).
    clearbody h' w'. subst h' w'. cbn. rewrite !bdim_refl. reflexivity.
Qed.

Lemma make_layer_snd inplanes planes blocks stride :
  snd (_make_layer inplanes planes blocks stride) = planes.
Proof. unfold _make_layer, expansion. cbn. lia. Qed.

Lemma make_layer_fwd m inplanes planes blocks stride n c h w :
  1 <= stride ->
  blocks_fwd m (fst (_make_layer inplanes planes blocks stride)) (S4 n c h w)
  = if (c =? inplanes) && negb (h =? 0) && negb (w =? 0)
       && bn_ok m n ((h - 1) / stride + 1) ((w - 1) / stride + 1)
    then Some (S4 n planes ((h - 1) / stride + 1) ((w - 1) / stride + 1)) else None.
Proof.
  intros Hs. unfold _make_layer. cbn [fst blocks_fwd].
  rewrite block_first by exact Hs.
  destruct ((c =? inplanes) && negb (h =? 0) && negb (w =? 0)
            && bn_ok m n ((h - 1) / stride + 1) ((w - 1) / stride + 1)) eqn:E; [|reflexivity].
  cbn. apply andb_true_iff in E. destruct E as [_ Eb].
  unfold expansion. rewrite Nat.mul_1_r.
  apply blocks_plain; [lia|lia|exact Eb].
Qed.

Lemma out_side_pool1 a : out_side 2 2 1 a = Some (a / 2 + 1).
Proof.
  unfold out_side. cbn [orb Nat.eqb].
  destruct (a + 2 * 1 <? 2) eqn:E; [apply Nat.ltb_lt in E; lia|].
  do 3 f_equal. lia.
Qed.

Lemma resnet_init_shape nfp l0 l1 l2 rest k :
  exists net, ResNet_init nfp (l0 :: l1 :: l2 :: rest) k = Some net
  /\ rn_conv1 net = Conv2d nfp 32 3 2 1 /\ rn_bn1 net = BatchNorm2d 32
  /\ rn_maxpool net = MaxPool2d 2 2 1
  /\ rn_layer1 net = fst (_make_layer 32 32 l0 1)
  /\ rn_layer2 net = fst (_make_layer 32 48 l1 2)
  /\ rn_layer3 net = fst (_make_layer 48 64 l2 2)
  /\ rn_fc1 net = Linear (64 * 5 * 5) 16 /\ rn_fc2 net = Linear 16 k.
Proof.
  eexists. split; [reflexivity|]. repeat split.
Qed.

Lemma resnet_forward_eq m net nfp l0 l1 l2 k n c h w :
  rn_conv1 net = Conv2d nfp 32 3 2 1 -> rn_bn1 net = BatchNorm2d 32 ->
  rn_maxpool net = MaxPool2d 2 2 1 ->
  rn_layer1 net = fst (_make_layer 32 32 l0 1) ->
  rn_layer2 net = fst (_make_layer 32 48 l1 2) ->
  rn_layer3 net = fst (_make_layer 48 64 l2 2) ->
  rn_fc1 net = Linear (64 * 5 * 5) 16 -> rn_fc2 net = Linear 16 k ->
  ResNet_forward m net (S4 n c h w)
  = if (c =? nfp) && negb (h =? 0) && negb (w =? 0)
       && bn_ok m n (rs1 h) (rs1 w) && bn_ok m n (rs2 h) (rs2 w)
       && bn_ok m n (rs3 h) (rs3 w) && bn_ok m n (rs4 h) (rs4 w)
       && negb (n =? 0) && (64 * rs4 h * rs4 w =? 64 * 5 * 5)
    then Some (S2 n k) else None.
Proof.
  intros Hc1 Hb1 Hmp Hl1 Hl2 Hl3 Hf1 Hf2.
  unfold ResNet_forward. rewrite Hc1, Hb1, Hmp, Hl1, Hl2, Hl3, Hf1, Hf2.
  cbn [module_fwd].
  destruct (c =? nfp) eqn:Ec; [|reflexivity].
  rewrite !out_side_conv3 by lia.
  destruct (h =? 0) eqn:Eh; [reflexivity|]. destruct (w =? 0) eqn:Ew; [reflexivity|].
  cbn [mbind option_bind module_fwd andb negb Nat.eqb].
  fold (rs1 h) (rs1 w).
  destruct (bn_ok m n (rs1 h) (rs1 w)) eqn:B1; [|reflexivity].
  cbn [mbind option_bind module_fwd andb negb].
  replace (2 / 2 <? 1) with false by reflexivity. cbn [negb].
  rewrite !out_side_pool1. cbn [mbind option_bind]. fold (rs2 h) (rs2 w).
  rewrite make_layer_fwd by lia.
  assert (Hr2 : forall x, (rs2 x - 1) / 1 + 1 = rs2 x)
    by (intros x; unfold rs2; rewrite Nat.div_1_r; lia).
  assert (Hz2 : forall x, (rs2 x =? 0) = false)
    by (intros x; apply Nat.eqb_neq; unfold rs2; lia).
  rewrite !Hr2, !Hz2. cbn [andb negb].
  destruct (bn_ok m n (rs2 h) (rs2 w)) eqn:B2; [|reflexivity]. cbn [mbind option_bind andb negb Nat.eqb].
  rewrite make_layer_fwd by lia. rewrite !Hz2. cbn [andb negb Nat.eqb].
  fold (rs3 h) (rs3 w).
  destruct (bn_ok m n (rs3 h) (rs3 w)) eqn:B3; [|reflexivity]. cbn [mbind option_bind andb negb Nat.eqb].
  rewrite make_layer_fwd by lia.
  assert (Hz3 : forall x, (rs3 x =? 0) = false)
    by (intros x; apply Nat.eqb_neq; unfold rs3; lia).
  rewrite !Hz3. cbn [andb negb Nat.eqb]. fold (rs4 h) (rs4 w).
  destruct (bn_ok m n (rs4 h) (rs4 w)) eqn:B4; [|reflexivity].
  cbn [mbind option_bind view_flat].
  destruct (n =? 0) eqn:En; [reflexivity|]. cbn [mbind option_bind module_fwd andb negb Nat.eqb].
  destruct (64 * rs4 h * rs4 w =? 64 * 5 * 5); reflexivity.
Qed.

Lemma resnet_side_eq x : resnet_side x = if x =? 0 then None else Some (rs4 x).
Proof.
  unfold resnet_side. rewrite out_side_conv3 by lia.
  destruct (x =? 0) eqn:E; [reflexivity|]. cbn [mbind option_bind].
  rewrite out_side_pool1. cbn [mbind option_bind]. fold (rs1 x) (rs2 x).
  rewrite out_side_same by (unfold rs2; lia). cbn [mbind option_bind].
  rewrite out_side_conv3 by lia.
  replace (rs2 x =? 0) with false by (symmetry; apply Nat.eqb_neq; unfold rs2; lia).
  cbn [mbind option_bind]. fold (rs3 x).
  rewrite out_side_conv3 by lia.
  replace (rs3 x =? 0) with false by (symmetry; apply Nat.eqb_neq; unfold rs3; lia).
  reflexivity.
Qed.

Lemma half_le x : 1 <= x -> x / 2 + 1 <= x.
Proof.
  intros H. pose proof (Nat.div_mod_eq x 2). pose proof (Nat.mod_upper_bound x 2). lia.
Qed.

Lemma halfm1_le x : 1 <= x -> (x - 1) / 2 + 1 <= x.
Proof.
  intros H. pose proof (Nat.div_mod_eq (x - 1) 2). pose proof (Nat.mod_upper_bound (x - 1) 2).
  lia.
Qed.

Lemma rs_chain x :
  1 <= x -> 1 <= rs4 x /\ rs4 x <= rs3 x /\ rs3 x <= rs2 x /\ rs2 x <= rs1 x.
Proof.
  intros H. unfold rs4, rs3, rs2, rs1.
  pose proof (halfm1_le ((x - 1) / 2 + 1)) as H1.
  pose proof (half_le ((x - 1) / 2 + 1)) as H2.
  pose proof (halfm1_le (((x - 1) / 2 + 1) / 2 + 1)) as H3.
  pose proof (halfm1_le (((((x - 1) / 2 + 1) / 2 + 1) - 1) / 2 + 1)) as H4.
  lia.
Qed.

Lemma rs4_mono x y : x <= y -> rs4 x <= rs4 y.
Proof.
  intros H. unfold rs4, rs3, rs2, rs1.
  repeat (apply Nat.add_le_mono_r || apply Nat.Div0.div_le_mono || apply Nat.sub_le_mono_r);
    try lia.
Qed.

Lemma bn_ok_big m n a b : 2 <= n * a * b -> bn_ok m n a b = true.
Proof.
  intros H. destruct m; cbn; [|reflexivity].
  destruct (n * a * b =? 1) eqn:E; [apply Nat.eqb_eq in E; lia|reflexivity].
Qed.

Lemma prod_big n a b a' b' :
  1 <= n -> a' <= a -> b' <= b -> a' * b' = 25 -> 2 <= n * a * b.
Proof.
  intros Hn Ha Hb Hab. pose proof (Nat.mul_le_mono a' a b' b Ha Hb).
  pose proof (Nat.mul_le_mono 1 n (a * b) (a * b) Hn (le_n _)). lia.
Qed.

(** X1: [ResNet(BasicBlock, num_feature_planes, layers, num_classes)] with at
    least three layer counts builds a network whose [forward] accepts a
    batch [(n, c, h, w)] exactly when the batch is not empty, [c] is
    [num_feature_planes] and the feature map reaching [fc1] is 5 x 5 (its
    sides are those of [conv1], [maxpool], [layer1..3]); it then returns
    shape [(n, num_classes)] in both modes. For a square input this means
    [63 <= h <= 78]. *)
Theorem resnet_forward_shape nfp l0 l1 l2 rest k :
  exists net, ResNet_init nfp (l0 :: l1 :: l2 :: rest) k = Some net
  /\ (forall m n c h w y,
        ResNet_forward m net (S4 n c h w) = Some y <->
        y = S2 n k /\ 1 <= n /\ c = nfp
        /\ exists a b, resnet_side h = Some a /\ resnet_side w = Some b /\ a * b = 25)
  /\ (forall m n c h y,
        ResNet_forward m net (S4 n c h h) = Some y <->
        y = S2 n k /\ 1 <= n /\ c = nfp /\ 63 <= h <= 78).
Proof.
  destruct (resnet_init_shape nfp l0 l1 l2 rest k)
    as (net & Hi & Hc1 & Hb1 & Hmp & Hl1 & Hl2 & Hl3 & Hf1 & Hf2).
  exists net. split; [exact Hi|].
  assert (G : forall m n c h w y,
        ResNet_forward m net (S4 n c h w) = Some y <->
        y = S2 n k /\ 1 <= n /\ c = nfp
        /\ exists a b, resnet_side h = Some a /\ resnet_side w = Some b /\ a * b = 25).
  { intros m n c h w y.
    rewrite (resnet_forward_eq m net nfp l0 l1 l2 k) by assumption.
    rewrite !resnet_side_eq. split.
    - match goal with |- (if ?b then _ else _) = _ -> _ => destruct b eqn:E end;
        [|discriminate].
      intros [= <-]. rewrite !andb_true_iff, !negb_true_iff, !Nat.eqb_eq, !Nat.eqb_neq in E.
      destruct E as [[[[[[[[Ec Eh] Ew] _] _] _] _] En] E25].
      split; [reflexivity|]. split; [lia|]. split; [exact Ec|].
      exists (rs4 h), (rs4 w).
      rewrite (proj2 (Nat.eqb_neq h 0) Eh), (proj2 (Nat.eqb_neq w 0) Ew).
      split; [reflexivity|]. split; [reflexivity|]. nia.
    - intros (-> & Hn & -> & a & b & Ha & Hb & Hab).
      destruct (h =? 0) eqn:Eh; [discriminate|]. destruct (w =? 0) eqn:Ew; [discriminate|].
      injection Ha as <-. injection Hb as <-.
      apply Nat.eqb_neq in Eh, Ew.
      destruct (rs_chain h) as (Ph1 & Ph2 & Ph3 & Ph4); [lia|].
      destruct (rs_chain w) as (Pw1 & Pw2 & Pw3 & Pw4); [lia|].
      rewrite Nat.eqb_refl.
      rewrite (bn_ok_big m n (rs1 h) (rs1 w)), (bn_ok_big m n (rs2 h) (rs2 w)),
        (bn_ok_big m n (rs3 h) (rs3 w)), (bn_ok_big m n (rs4 h) (rs4 w))
        by (apply (prod_big n _ _ (rs4 h) (rs4 w)); lia).
      rewrite (proj2 (Nat.eqb_neq n 0)) by lia.
      rewrite (proj2 (Nat.eqb_eq (64 * rs4 h * rs4 w) (64 * 5 * 5))) by nia.
      reflexivity. }
  split; [exact G|].
  intros m n c h y. rewrite G, resnet_side_eq.
  assert (R62 : rs4 62 = 4) by reflexivity. assert (R63 : rs4 63 = 5) by reflexivity.
  assert (R78 : rs4 78 = 5) by reflexivity. assert (R79 : rs4 79 = 6) by reflexivity.
  split.
  - intros (-> & Hn & -> & a & b & Ha & Hb & Hab).
    destruct (h =? 0) eqn:Eh; [discriminate|].
    rewrite Ha in Hb. injection Ha as <-. injection Hb as <-.
    assert (R : rs4 h = 5) by nia.
    repeat split; try lia.
    + destruct (Nat.le_gt_cases 63 h) as [|L]; [lia|].
      pose proof (rs4_mono h 62 ltac:(lia)). lia.
    + destruct (Nat.le_gt_cases h 78) as [|L]; [lia|].
      pose proof (rs4_mono 79 h ltac:(lia)). lia.
  - intros (-> & Hn & -> & Hh).
    replace (h =? 0) with false by (symmetry; apply Nat.eqb_neq; lia).
    pose proof (rs4_mono 63 h ltac:(lia)). pose proof (rs4_mono h 78 ltac:(lia)).
    repeat split; try lia. exists 5, 5. repeat split; f_equal; lia.
Qed.

Ltac fwd_simpl_in H :=
  cbn [seq_fwd module_fwd andb orb negb Nat.eqb Nat.ltb Nat.leb Nat.div Nat.divmod Init.Nat.eqb Init.Nat.ltb Init.Nat.leb Init.Nat.div Init.Nat.divmod fst snd
       view_flat ln_feature_extractor ln_fc1 ln_fc2 ln_fc3] in H;
  unfold mbind, option_bind in H.

Ltac fwd_inv H :=
  repeat (fwd_simpl_in H; match type of H with
  | context [match out_side ?a ?b ?c ?d with Some _ => _ | None => _ end] =>
      let E := fresh "E" in destruct (out_side a b c d) eqn:E; try discriminate H
  | context [if bn_ok ?a ?b ?c ?d then _ else _] =>
      let E := fresh "B" in destruct (bn_ok a b c d) eqn:E; try discriminate H
  | context [if ?x =? ?y then _ else _] =>
      let E := fresh "Q" in destruct (x =? y) eqn:E; try discriminate H
  end).

Ltac fwd_rewrite :=
  repeat (cbn [seq_fwd module_fwd andb orb negb Nat.eqb Nat.ltb Nat.leb Nat.div Nat.divmod Init.Nat.eqb Init.Nat.ltb Init.Nat.leb Init.Nat.div Init.Nat.divmod
               fst snd view_flat ln_feature_extractor ln_fc1 ln_fc2 ln_fc3];
          unfold mbind, option_bind;
          match goal with E : out_side ?a ?b ?c ?d = Some _ |- context [out_side ?a ?b ?c ?d] =>
            rewrite E end);
  cbn [seq_fwd module_fwd andb orb negb Nat.eqb Nat.ltb Nat.leb Nat.div Nat.divmod
       Init.Nat.eqb Init.Nat.ltb Init.Nat.leb Init.Nat.div Init.Nat.divmod
       fst snd view_flat ln_feature_extractor ln_fc1 ln_fc2 ln_fc3];
  unfold mbind, option_bind.

Lemma out_side_le0 k s x y : 1 <= k -> 1 <= s -> out_side k s 0 x = Some y -> 1 <= y <= x.
Proof.
  unfold out_side. intros Hk Hs H.
  destruct ((k =? 0) || (s =? 0) || (x + 2 * 0 <? k)) eqn:E; [discriminate|].
  injection H as <-. rewrite !orb_false_iff, Nat.ltb_ge in E.
  rewrite Nat.mul_0_r, Nat.add_0_r in *.
  assert ((x - k) / s <= x - k) by (apply Nat.Div0.div_le_upper_bound; nia).
  lia.
Qed.

Lemma lenet_fwd_iff m k n c h w y :
  LeNet_forward m (LeNet_init k) (S4 n c h w) = Some y <->
  y = S2 n k /\ 1 <= n /\ c = 2
  /\ exists a b, lenet_side h = Some a /\ lenet_side w = Some b /\ a * b = 25.
Proof.
  split.
  - intros H. unfold LeNet_forward, LeNet_init in H. fwd_inv H.
    cbn in H. injection H as <-.
    apply Nat.eqb_eq in Q. apply Nat.eqb_neq in Q0. apply Nat.eqb_eq in Q1.
    split; [reflexivity|]. split; [lia|]. split; [exact Q|].
    exists n12, n13. unfold lenet_side. split; [|split; [|nia]]; fwd_rewrite; reflexivity.
  - intros (-> & Hn & -> & a & b & Ha & Hb & Hab).
    unfold lenet_side in Ha, Hb. fwd_inv Ha. fwd_inv Hb.
    idtac.
    repeat match goal with E : out_side ?k ?s 0 ?x = Some ?y |- _ =>
      lazymatch goal with _ : 1 <= y <= x |- _ => fail | _ =>
        pose proof (out_side_le0 k s x y ltac:(lia) ltac:(lia) E) end end.
    unfold LeNet_forward, LeNet_init.
    repeat (fwd_rewrite; match goal with
      | |- context [bn_ok ?m ?n ?x ?y] =>
          rewrite (bn_ok_big m n x y) by (apply (prod_big n x y a b); lia)
      end).
    fwd_rewrite.
    rewrite (proj2 (Nat.eqb_neq n 0)) by lia. cbn [Nat.eqb Init.Nat.eqb].
    rewrite (proj2 (Nat.eqb_eq (128 * a * b) (128 * 5 * 5))) by nia.
    reflexivity.
Qed.

Ltac div2_facts :=
  repeat match goal with |- context [?a / 2] =>
    lazymatch goal with _ : a = 2 * (a / 2) + a mod 2 |- _ => fail | _ =>
      pose proof (Nat.div_mod_eq a 2); pose proof (Nat.mod_upper_bound a 2 ltac:(lia)) end end.

Lemma out_side_c30 a : 3 <= a -> out_side 3 1 0 a = Some (a - 2).
Proof.
  intros H. unfold out_side. cbn [orb Nat.eqb].
  destruct (a + 2 * 0 <? 3) eqn:E; [apply Nat.ltb_lt in E; lia|].
  rewrite Nat.div_1_r. f_equal. lia.
Qed.

Lemma out_side_p20 a : 2 <= a -> out_side 2 2 0 a = Some (a / 2).
Proof.
  intros H. unfold out_side. cbn [orb Nat.eqb].
  destruct (a + 2 * 0 <? 2) eqn:E; [apply Nat.ltb_lt in E; lia|].
  f_equal. replace (a + 2 * 0 - 2) with ((a / 2 - 1) * 2 + a mod 2) by (div2_facts; lia).
  rewrite Nat.div_add_l by lia. div2_facts.
  rewrite (Nat.div_small (a mod 2) 2) by lia. lia.
Qed.

Lemma lenet_side_eq x : lenet_side x = if 38 <=? x then Some (lf x) else None.
Proof.
  destruct (38 <=? x) eqn:E.
  - apply Nat.leb_le in E. unfold lenet_side, lf.
    rewrite out_side_c30 by lia. cbn [mbind option_bind].
    rewrite out_side_p20 by lia. cbn [mbind option_bind].
    rewrite out_side_c30 by (div2_facts; lia). cbn [mbind option_bind].
    rewrite out_side_p20 by (div2_facts; lia). cbn [mbind option_bind].
    rewrite out_side_c30 by (div2_facts; lia). cbn [mbind option_bind].
    rewrite out_side_p20 by (div2_facts; lia). cbn [mbind option_bind].
    rewrite out_side_c30 by (div2_facts; lia). reflexivity.
  - apply Nat.leb_gt in E.
    do 38 (destruct x as [|x]; [reflexivity|]). lia.
Qed.

Lemma lf_mono x y : x <= y -> lf x <= lf y.
Proof.
  intros H. unfold lf.
  repeat (apply Nat.sub_le_mono_r || apply Nat.Div0.div_le_mono); lia.
Qed.

(** X2: [LeNet(num_classes)]: [forward] accepts a batch [(n, c, h, w)] exactly
    when the batch is not empty, [c = 2] and the feature map reaching
    [fc1] has 25 cells: its sides, those left by the four convolutions
    and three poolings, multiply to 25 (5 x 5, or 1 x 25 and 25 x 1, as
    for a 38 x 230 input). It then returns shape [(n, num_classes)] in
    both modes. For a square input this means [70 <= h <= 77]. *)
Theorem lenet_forward_shape k :
  (forall m n c h w y,
     LeNet_forward m (LeNet_init k) (S4 n c h w) = Some y <->
     y = S2 n k /\ 1 <= n /\ c = 2
     /\ exists a b, lenet_side h = Some a /\ lenet_side w = Some b /\ a * b = 25)
  /\ (forall m n c h y,
     LeNet_forward m (LeNet_init k) (S4 n c h h) = Some y <->
     y = S2 n k /\ 1 <= n /\ c = 2 /\ 70 <= h <= 77).
Proof.
  split; [intros m; exact (lenet_fwd_iff m k)|].
  intros m n c h y. rewrite lenet_fwd_iff, lenet_side_eq.
  assert (R69 : lf 69 = 4) by reflexivity. assert (R70 : lf 70 = 5) by reflexivity.
  assert (R77 : lf 77 = 5) by reflexivity. assert (R78 : lf 78 = 6) by reflexivity.
  split.
  - intros (-> & Hn & -> & a & b & Ha & Hb & Hab).
    destruct (38 <=? h) eqn:Eh; [|discriminate].
    rewrite Ha in Hb. injection Ha as <-. injection Hb as <-.
    assert (R : lf h = 5) by nia.
    repeat split; try lia.
    + destruct (Nat.le_gt_cases 70 h) as [|L]; [lia|].
      pose proof (lf_mono h 69 ltac:(lia)). lia.
    + destruct (Nat.le_gt_cases h 77) as [|L]; [lia|].
      pose proof (lf_mono 78 h ltac:(lia)). lia.
  - intros (-> & Hn & -> & Hh).
    replace (38 <=? h) with true by (symmetry; apply Nat.leb_le; lia).
    pose proof (lf_mono 70 h ltac:(lia)). pose proof (lf_mono h 77 ltac:(lia)).
    repeat split; try lia. exists 5, 5. repeat split; f_equal; lia.
Qed.

(** X3: [ResNet.__init__] reads [layers[0]], [layers[1]] and [layers[2]]: it
    raises IndexError exactly when [layers] has fewer than three entries,
    and entries past the third are ignored. *)
Theorem resnet_init_layers nfp layers k :
  (ResNet_init nfp layers k = None <-> length layers < 3)
  /\ ResNet_init nfp layers k = ResNet_init nfp (firstn 3 layers) k.
Proof.
  destruct layers as [|l0 [|l1 [|l2 rest]]];
    try (split; [split; [cbn; lia|reflexivity]|reflexivity]).
  destruct (resnet_init_shape nfp l0 l1 l2 rest k) as (net & Hi & _).
  split; [|reflexivity].
  rewrite Hi. cbn. split; [discriminate|lia].
Qed.

(** X4: [_make_layer] always builds at least one block ([range(1, blocks)] is
    empty for [blocks <= 1]); only the first block may get a downsample
    branch, and it gets one exactly when [stride <> 1] or [inplanes] is
    not [planes * expansion]; the other blocks are [BasicBlock(planes,
    planes)]. *)
Theorem make_layer_structure inplanes planes blocks stride :
  length (fst (_make_layer inplanes planes blocks stride)) = Nat.max 1 blocks
  /\ (exists b, head (fst (_make_layer inplanes planes blocks stride)) = Some b
        /\ b = BasicBlock inplanes planes stride (bb_downsample b)
        /\ (bb_downsample b <> None <-> stride <> 1 \/ inplanes <> planes))
  /\ (forall b, In b (tail (fst (_make_layer inplanes planes blocks stride))) ->
        b = BasicBlock planes planes 1 None).
Proof.
  unfold _make_layer, expansion. rewrite Nat.mul_1_r. cbn [fst head tail].
  split; [|split].
  - cbn [length]. rewrite length_map, length_seq. lia.
  - eexists. split; [reflexivity|]. split; [reflexivity|]. cbn [bb_downsample BasicBlock].
    destruct (negb (stride =? 1) || negb (inplanes =? planes)) eqn:E.
    + split; [intros _|discriminate].
      apply orb_true_iff in E. rewrite !negb_true_iff, !Nat.eqb_neq in E. exact E.
    + split; [intros H; contradiction|].
      apply orb_false_iff in E. rewrite !negb_false_iff, !Nat.eqb_eq in E. lia.
  - intros b Hb. apply in_map_iff in Hb. destruct Hb as (i & <- & _). reflexivity.
Qed.

(** X5: [_make_layer] builds a layer that maps [inplanes] channels to
    [planes] channels and divides each side by [stride] as its first
    convolution does; every residual addition of every block succeeds,
    and the next [self.inplanes] is [planes]. *)
Theorem make_layer_forward m inplanes planes blocks stride n c h w (Hs : 1 <= stride) :
  snd (_make_layer inplanes planes blocks stride) = planes
  /\ blocks_fwd m (fst (_make_layer inplanes planes blocks stride)) (S4 n c h w)
     = if (c =? inplanes) && negb (h =? 0) && negb (w =? 0)
          && bn_ok m n ((h - 1) / stride + 1) ((w - 1) / stride + 1)
       then Some (S4 n planes ((h - 1) / stride + 1) ((w - 1) / stride + 1)) else None.
Proof. split; [apply make_layer_snd|apply make_layer_fwd; exact Hs]. Qed.

Lemma make_layer_forward_witness :
  1 <= 2 /\ snd (_make_layer 32 48 2 2) = 48
  /\ blocks_fwd Training (fst (_make_layer 32 48 2 2)) (S4 8 32 20 20) = Some (S4 8 48 10 10).
Proof.
  split; [lia|]. exact (make_layer_forward Training 32 48 2 2 8 32 20 20 ltac:(lia)).
Defined.

(** X6: [BasicBlock(inplanes, planes, stride)] built without a downsample
    branch adds its input to its output as it is: on a batch
    [(n, c, h, w)] it runs exactly when the input has [inplanes]
    channels, the stride is not 0, the sides are positive, batch
    normalisation accepts the output, and the input broadcasts to the
    output: the same number of channels or [inplanes = 1], and each side
    kept by the strided convolution or equal to 1. *)
Theorem basic_block_without_downsample m inplanes planes stride n c h w :
  BasicBlock_forward m (BasicBlock inplanes planes stride None) (S4 n c h w)
  = if (c =? inplanes) && negb (stride =? 0) && negb (h =? 0) && negb (w =? 0)
       && bn_ok m n ((h - 1) / stride + 1) ((w - 1) / stride + 1)
       && bdim inplanes planes && bdim h ((h - 1) / stride + 1)
       && bdim w ((w - 1) / stride + 1)
    then Some (S4 n planes ((h - 1) / stride + 1) ((w - 1) / stride + 1)) else None.
Proof.
  unfold BasicBlock_forward, BasicBlock, conv3x3.
  cbn [bb_conv1 bb_bn1 bb_conv2 bb_bn2 bb_downsample module_fwd].
  destruct (c =? inplanes) eqn:Ec; [|reflexivity].
  apply Nat.eqb_eq in Ec. subst c.
  destruct stride as [|s]; [reflexivity|].
  rewrite !out_side_conv3 by lia.
  destruct (h =? 0) eqn:Eh; [reflexivity|]. destruct (w =? 0) eqn:Ew; [reflexivity|].
  apply Nat.eqb_neq in Eh, Ew.
  set (h' := (h - 1) / S s + 1). set (w' := (w - 1) / S s + 1).
  cbn [mbind option_bind module_fwd andb negb Nat.eqb].
  rewrite Nat.eqb_refl. cbn [andb].
  destruct (bn_ok m n h' w') eqn:Eb; [|reflexivity].
  cbn [mbind option_bind module_fwd].
  rewrite Nat.eqb_refl, !out_side_same by (unfold h', w'; lia).
  cbn [mbind option_bind module_fwd]. rewrite Nat.eqb_refl, Eb.
  cbn [mbind option_bind module_fwd andb add_inplace]. rewrite bdim_refl. cbn [andb].
  destruct (bdim inplanes planes), (bdim h h'), (bdim w w'); reflexivity.
Qed.

End NetFacts.

(* ------------------------------------------------------------------ *)
(** ** Frames and outcomes of [evaluate] and [fit] *)

Lemma getitem_keeps {Params : Type} k : keeps_fields (getitem Params k).
Proof.
  intros s s' r H. unfold getitem in H.
  destruct (st_preds s !! k); injection H as <- _; auto.
Qed.

Lemma lift_keeps {Params A : Type} (x : res A) : keeps_fields (Params := Params) (lift x).
Proof. intros s s' r H. injection H as <- _. auto. Qed.

Lemma set_mode_keeps {Params : Type} m : keeps_fields (set_mode Params m).
Proof. intros s s' r H. injection H as <- _. auto. Qed.

Lemma emit_keeps {Params : Type} ev : keeps_fields (emit Params ev).
Proof. intros s s' r H. injection H as <- _. auto. Qed.

Lemma ret_keeps {Params A : Type} (a : A) : keeps_fields (Params := Params) (ret a).
Proof. intros s s' r H. injection H as <- _. auto. Qed.

Lemma if_mode_keeps {Params : Type} (b : bool) m :
  keeps_fields (if b then set_mode Params m else ret tt).
Proof. destruct b; [apply set_mode_keeps|apply ret_keeps]. Qed.

Lemma val_loop_keeps {Input Params : Type} forward n (it : loader Input) lossf acc :
  keeps_fields (Params := Params) (val_loop forward n it lossf acc).
Proof.
  intros s s' r H. apply val_loop_frame in H. tauto.
Qed.

Lemma pop_fields {Params : Type} k (s s' : state Params) r :
  pop Params k s = (s', r) ->
  st_params s' = st_params s /\ st_epoch s' = st_epoch s /\ st_preds s' = delete k (st_preds s).
Proof.
  intros H. unfold pop, bind, get in H.
  destruct (st_preds s !! k) eqn:E; cbv [set_preds ret raise] in H; injection H as <- _;
    cbn [st_params st_epoch st_preds]; repeat split.
  now rewrite delete_id.
Qed.

Lemma evaluate_no_key {Input Params : Type} forward (ld : loader Input) lossf
    switch_to_eval (s : state Params) :
  st_preds s !! "train_loss"%string = None ->
  snd (evaluate forward ld lossf switch_to_eval s) = Err KeyError.
Proof. intros E. cbv [evaluate bind pop get]. rewrite E. reflexivity. Qed.

(** One step of [evaluate] that keeps parameters, epoch and cache. *)
Ltac kstep H Hp He Hc Hfin :=
  bstep H;
  match goal with
  | E : _ = (?x, _) |- _ =>
      let Hp' := fresh in let He' := fresh in let Hc' := fresh in
      assert (Hp' : st_params x = st_params _ /\ st_epoch x = st_epoch _
                    /\ st_preds x = st_preds _)
        by first [ eapply getitem_keeps; exact E | eapply lift_keeps; exact E
                 | eapply if_mode_keeps; exact E | eapply val_loop_keeps; exact E
                 | eapply emit_keeps; exact E ];
      clear E; destruct Hp' as (Hp' & He' & Hc');
      rewrite Hp in Hp'; rewrite He in He'; rewrite Hc in Hc'; clear Hp He Hc;
      rename Hp' into Hp; rename He' into He; rename Hc' into Hc
  end;
  [|match goal with Hr : ?r = Err _ |- _ => subst r end; exact (Hfin _ _ Hp He Hc)].

Lemma evaluate_fields {Input Params : Type} forward (ld : loader Input)
    lossf switch_to_eval (s s' : state Params) r :
  evaluate forward ld lossf switch_to_eval s = (s', r) ->
  st_params s' = st_params s /\ st_epoch s' = st_epoch s
  /\ (forall e, r = Err e -> st_preds s' = delete "train_loss"%string (st_preds s)).
Proof.
  intros H. unfold evaluate in H.
  assert (Hfin : forall x e0, st_params x = st_params s -> st_epoch x = st_epoch s ->
            st_preds x = delete "train_loss"%string (st_preds s) ->
            st_params x = st_params s /\ st_epoch x = st_epoch s
            /\ (forall e, @Err dict e0 = Err e ->
                  st_preds x = delete "train_loss"%string (st_preds s))).
  { intros x e0 Hp He Hc. split; [exact Hp|]. split; [exact He|]. intros e _. exact Hc. }
  bstep H; apply pop_fields in E; destruct E as (Hp & He & Hc);
    [|subst r; exact (Hfin _ _ Hp He Hc)].
  kstep H Hp He Hc Hfin.
  kstep H Hp He Hc Hfin.
  kstep H Hp He Hc Hfin.
  kstep H Hp He Hc Hfin.
  kstep H Hp He Hc Hfin.
  kstep H Hp He Hc Hfin.
  kstep H Hp He Hc Hfin.
  kstep H Hp He Hc Hfin.
  kstep H Hp He Hc Hfin.
  match goal with a : val_buffers |- _ => destruct a as [[[ats aps] acs] ls] end.
  cbv beta iota zeta in H.
  kstep H Hp He Hc Hfin.
  kstep H Hp He Hc Hfin.
  kstep H Hp He Hc Hfin.
  kstep H Hp He Hc Hfin.
  kstep H Hp He Hc Hfin.
  kstep H Hp He Hc Hfin.
  cbv [bind _reset_predictions_cache set_preds emit ret] in H.
  injection H as <- <-. cbn [st_params st_epoch].
  split; [exact Hp|]. split; [exact He|]. intros e0 [=].
Qed.

(** X7: [evaluate] never changes the parameters or the epoch counter. When it
    raises, whatever the step, the prediction cache is the one it was
    called with minus its [train_loss] entry, which [pop] removed and
    nothing put back: calling [evaluate] again on that object raises
    KeyError. *)
Theorem evaluate_error_drops_train_loss {Input Params : Type} forward (ld : loader Input)
    lossf switch_to_eval (s s' : state Params) r :
  evaluate forward ld lossf switch_to_eval s = (s', r) ->
  st_params s' = st_params s /\ st_epoch s' = st_epoch s
  /\ (forall e, r = Err e ->
        st_preds s' = delete "train_loss"%string (st_preds s)
        /\ forall ld' lossf' switch_to_eval',
             snd (evaluate forward ld' lossf' switch_to_eval' s') = Err KeyError).
Proof.
  intros H. destruct (evaluate_fields _ _ _ _ _ _ _ H) as (Hp & He & Hc).
  split; [exact Hp|]. split; [exact He|]. intros e Hr. split; [exact (Hc e Hr)|].
  intros. apply evaluate_no_key. rewrite (Hc e Hr). apply lookup_delete_eq.
Qed.

Lemma getitem_same {Params : Type} k (s s' : state Params) r :
  getitem Params k s = (s', r) -> s' = s.
Proof. intros H. unfold getitem in H. destruct (st_preds s !! k); now injection H as <- _. Qed.

Lemma pop_ok {Params : Type} k (s s' : state Params) v :
  pop Params k s = (s', Ok v) ->
  st_preds s !! k = Some v /\ st_mode s' = st_mode s /\ st_params s' = st_params s
  /\ st_trace s' = st_trace s.
Proof.
  intros H. unfold pop, bind, get in H.
  destruct (st_preds s !! k) eqn:E; cbv [set_preds ret raise] in H; injection H as <- Hv;
    [|discriminate]. subst. repeat split.
Qed.

Lemma compute_metrics_classes_keys (t p : list Q) (training : bool) (d : dict) :
  _compute_metrics t p true training = Ok d ->
  exists a b c, d = [((if training then "" else "val_") +:+ "precision", a);
                     ((if training then "" else "val_") +:+ "recall", b);
                     ((if training then "" else "val_") +:+ "acc", c)]%string.
Proof.
  unfold _compute_metrics.
  destruct (Sk.recall_score t p) as [r|e]; [|destruct (Sk.precision_score t p);
    [destruct (Sk.accuracy_score t p)|]; discriminate].
  destruct (Sk.precision_score t p) as [pr|e]; [|destruct (Sk.accuracy_score t p); discriminate].
  destruct (Sk.accuracy_score t p) as [ac|e]; [|discriminate].
  intros H. injection H as <-. exists pr, r, ac. destruct training; reflexivity.
Qed.

Lemma compute_metrics_scores_keys (t p : list Q) (training : bool) (d : dict) :
  _compute_metrics t p false training = Ok d ->
  exists a, d = [((if training then "" else "val_") +:+ "auc", a)]%string.
Proof.
  unfold _compute_metrics.
  destruct (Sk.roc_curve t p) as [[fpr tpr]|e]; [|discriminate].
  destruct (Sk.auc fpr tpr) as [a|e]; intros H; inversion H; subst.
  exists a. destruct training; reflexivity.
Qed.

(** A validation loader read to its length without an error yields only batches. *)
Lemma val_loop_ok_loader {Input Params : Type} forward n (it : loader Input) lossf acc
    (s s' : state Params) u :
  val_loop forward n it lossf acc s = (s', Ok u) -> n = length it ->
  exists bs, it = map Ok bs.
Proof.
  revert it acc s. induction n as [|n IH]; intros it acc s H Hn.
  - destruct it; [exists []; reflexivity|discriminate Hn].
  - cbn [val_loop] in H. bstep H; [|discriminate].
    destruct a as [b it']. unfold _get_inputs, bind, emit in E.
    destruct it as [|[b0|e0] it0]; [discriminate Hn| |discriminate E].
    cbv [ret] in E. injection E as <- <- <-. cbn [length] in Hn.
    bstep H; [|discriminate]. destruct a as [probs classes].
    destruct acc as [[[ats aps] acs] ls]. cbv beta iota zeta in H.
    bstep H; [|discriminate].
    destruct (IH _ _ _ H) as [bs ->]; [lia|]. exists (b0 :: bs). reflexivity.
Qed.

(** X8: a call of [evaluate] with a loss function that returns a record
    hands two records to the logger, last before the cache reset: the
    training record, with keys train_loss, precision, recall, acc, auc
    in this order and [train_loss] the mean of the cached training
    losses, then the validation record it returns, with keys
    val_precision, val_recall, val_acc, val_loss, val_auc and [val_loss]
    the unweighted mean of the per-batch losses of the validation
    batches, the network run in inference mode when [switch_to_eval]
    and in the current mode otherwise. *)
Theorem evaluate_records {Input Params : Type} forward (ld : loader Input) f
    switch_to_eval (s s' : state Params) d :
  evaluate forward ld (Some f) switch_to_eval s = (s', Ok d) ->
  exists pre dt tl qt bs qv,
    st_trace s' = st_trace s ++ pre ++ [EvLog dt true; EvLog d false; EvResetCache]
    /\ dict_keys dt = ["train_loss"; "precision"; "recall"; "acc"; "auc"]%string
    /\ dict_keys d = ["val_precision"; "val_recall"; "val_acc"; "val_loss"; "val_auc"]%string
    /\ st_preds s !! "train_loss"%string = Some tl /\ mean tl = Ok qt
    /\ dict_get dt "train_loss"%string = Some (Num qt)
    /\ ld = map Ok bs
    /\ mean (map (fun b => f (forward (st_params s)
                                (if switch_to_eval then Inference else st_mode s)
                                (b_inputs b)) (b_targets b)) bs) = Ok qv
    /\ dict_get d "val_loss"%string = Some (Num qv).
Proof.
  intros H. unfold evaluate in H.
  bstep H; [|discriminate]. apply pop_ok in E. destruct E as (Etl & Hm1 & Hp1 & Ht1).
  match type of Etl with _ = Some ?v => rename v into tl end.
  bstep H; [|discriminate]. apply lift_ok in E. destruct E as [Eqt ->].
  match type of Eqt with _ = Ok ?v => rename v into qt end.
  bstep H; [|discriminate]. apply getitem_same in E. subst.
  bstep H; [|discriminate]. apply getitem_same in E. subst.
  bstep H; [|discriminate]. apply lift_ok in E. destruct E as [Etm1 ->].
  bstep H; [|discriminate]. apply getitem_same in E. subst.
  bstep H; [|discriminate]. apply getitem_same in E. subst.
  bstep H; [|discriminate]. apply lift_ok in E. destruct E as [Etm2 ->].
  bstep H; [|discriminate].
  match type of E with _ ?s1 = (?s9, _) =>
    assert (H9 : st_params s9 = st_params s1
                 /\ st_mode s9 = (if switch_to_eval then Inference else st_mode s1)
                 /\ st_trace s9 = st_trace s1 ++ (if switch_to_eval then [EvSetMode Inference] else []))
      by (destruct switch_to_eval; cbv [set_mode ret] in E; injection E as <- _;
          cbn; rewrite ?app_nil_r; auto);
    clear E
  end.
  destruct H9 as (Hp9 & Hm9 & Ht9).
  bstep H; [|discriminate].
  destruct (val_loop_ok_loader _ _ _ _ _ _ _ _ E eq_refl) as [bs ->].
  pose proof (val_loop_frame _ _ _ _ _ _ _ _ E) as (_ & _ & _ & _ & vnew & Hv & _).
  match type of E with val_loop _ _ _ _ _ ?sx = _ =>
    pose proof (val_loop_buffers forward bs (Some f) ([], [], [], []) sx) as Hbuf end.
  rewrite length_map in E. rewrite E in Hbuf. cbn [snd] in Hbuf. injection Hbuf as ->. clear E.
  cbv beta iota zeta in H.
  bstep H; [|discriminate]. apply lift_ok in E. destruct E as [Ecm ->].
  bstep H; [|discriminate]. apply lift_ok in E. destruct E as [Ecm1 ->].
  bstep H; [|discriminate]. apply lift_ok in E. destruct E as [Emean ->].
  destruct (compute_metrics_classes_keys _ _ _ _ Etm1) as (pa & pb & pc & ->).
  destruct (compute_metrics_scores_keys _ _ _ _ Etm2) as (px & ->).
  destruct (compute_metrics_classes_keys _ _ _ _ Ecm) as (va & vb & vc & ->).
  destruct (compute_metrics_scores_keys _ _ _ _ Ecm1) as (vx & ->).
  cbv [bind set_mode _log_and_reset _reset_predictions_cache emit set_preds ret] in H.
  match type of Emean with mean _ = Ok ?q => rename q into qv end.
  rewrite Hp9, Hm9, Hp1, Hm1 in Emean. cbn [app] in Emean.
  exists ((if switch_to_eval then [EvSetMode Inference] else []) ++ vnew
          ++ (if switch_to_eval then [EvSetMode Training] else [])).
  destruct switch_to_eval; cbn [st_trace] in H; injection H as <- <-;
    eexists; exists tl, qt, bs, qv; cbn [st_trace];
    (split; [rewrite Hv, Ht9, Ht1; cbn [app]; rewrite <- !app_assoc; reflexivity|]);
    repeat split; assumption || reflexivity.
Qed.

(** Parameters, epoch and mode after a training epoch that completes. *)
Lemma train_epoch_ok {Input Params : Type} forward loss_fn optim_step
    (lds : list (loader Input)) (s s' : state Params) u :
  train_epoch forward loss_fn optim_step lds s = (s', Ok u) ->
  exists bss, lds = map (map Ok) bss
  /\ st_params s' = fold_left (fun w b => optim_step w (b_inputs b) (b_targets b))
                              (concat bss) (st_params s)
  /\ st_epoch s' = st_epoch s /\ st_mode s' = st_mode s.
Proof.
  revert s. induction lds as [|ld lds IH]; intros s H.
  - injection H as <- _. exists []. repeat split.
  - cbn [train_epoch] in H. bstep H; [|discriminate].
    destruct (train_batches_ok_loader _ _ _ _ _ _ _ _ E eq_refl) as [bs ->].
    destruct (train_batches_run forward loss_fn optim_step bs s)
      as (s1' & Hrun & Hm1 & He1 & _ & Hp1 & _).
    rewrite length_map, Hrun in E. injection E as <- _.
    destruct (IH _ H) as (bss & -> & Hp2 & He2 & Hm2).
    exists (bs :: bss). split; [reflexivity|].
    cbn [concat]. rewrite fold_left_app, Hp2, Hp1. split; [reflexivity|].
    split; congruence.
Qed.

Lemma map_map_Ok_inj {A : Type} (xss yss : list (list A)) :
  map (map (@Ok A)) xss = map (map Ok) yss -> xss = yss.
Proof.
  revert yss. induction xss as [|xs xss IH]; intros [|ys yss] H; try discriminate H; [reflexivity|].
  injection H as H1 H2. f_equal; [|exact (IH _ H2)].
  clear H2 IH. revert ys H1. induction xs as [|x xs IH]; intros [|y ys] H; try discriminate H;
    [reflexivity|]. injection H as -> H. f_equal. exact (IH _ H).
Qed.



(** With [switch_to_eval] set, a successful [evaluate] leaves the network
    in training mode and the prediction cache reset. *)
Lemma evaluate_ok_end {Input Params : Type} forward (ld : loader Input) lossf
    (s s' : state Params) d :
  evaluate forward ld lossf true s = (s', Ok d) ->
  st_mode s' = Training /\ st_preds s' = empty_predictions.
Proof.
  intros H. unfold evaluate in H.
  do 10 (bstep H; [clear E|discriminate]).
  match goal with a : val_buffers |- _ => destruct a as [[[? ?] ?] ?] end.
  cbv beta iota zeta in H.
  do 3 (bstep H; [clear E|discriminate]).
  cbv [bind set_mode _log_and_reset _reset_predictions_cache emit set_preds ret] in H.
  injection H as <- _. split; reflexivity.
Qed.

Lemma fit_epochs_end {Input Params : Type} forward loss_fn optim_step fold_number k e
    (lds : list (loader Input)) vld best (s s' : state Params) r :
  fit_epochs forward loss_fn optim_step fold_number e (S k) lds vld best s = (s', Ok r) ->
  st_mode s' = Training /\ st_epoch s' = (e + k)%nat /\ st_preds s' = empty_predictions
  /\ exists bss, lds = map (map Ok) bss
     /\ st_params s' = Nat.iter (S k)
          (fold_left (fun w b => optim_step w (b_inputs b) (b_targets b)) (concat bss))
          (st_params s).
Proof.
  revert e best s. induction k as [|k IH]; intros e best s H;
    cbn [fit_epochs] in H.
  all: bstep H; [|discriminate]; cbv [set_epoch] in E; injection E as <- _.
  all: bstep H; [|discriminate];
    apply train_epoch_ok in E; destruct E as (bss & -> & Hp2 & He2 & _).
  all: bstep H; [|discriminate];
    destruct (evaluate_fields _ _ _ _ _ _ _ E) as (Hp3 & He3 & _);
    apply evaluate_ok_end in E; destruct E as (Hm3 & Hc3).
  all: bstep H; [|discriminate]; apply lift_ok in E; destruct E as [_ ->].
  all: bstep H; [|discriminate]; cbv [save emit] in E; injection E as <- _.
  - cbv [fit_epochs ret] in H. injection H as <- _. cbn [st_mode st_epoch st_preds st_params].
    split; [exact Hm3|]. split; [rewrite He3, He2; cbn; lia|]. split; [exact Hc3|].
    exists bss. split; [reflexivity|]. rewrite Hp3, Hp2. reflexivity.
  - apply IH in H. destruct H as (Hm & He & Hc & bss' & Hl & Hp).
    apply map_map_Ok_inj in Hl. subst bss'.
    split; [exact Hm|]. split; [rewrite He; lia|]. split; [exact Hc|].
    exists bss. split; [reflexivity|].
    rewrite Hp. cbn [st_params]. rewrite Hp3, Hp2. cbn [st_params].
    rewrite (Nat.iter_succ_r (S k)). reflexivity.
Qed.

(** X9: a [fit] of at least one epoch, started with the network in
    training mode, that returns leaves the network in training mode (the
    last [evaluate] switches it back), [self._epoch] at [num_epochs - 1]
    and the prediction cache reset. Every training loader yielded batches
    only, and the parameters are those of [num_epochs] passes of the
    optimizer over all of their batches, in order. [fit] never calls
    [self.train()] itself: its first epoch runs in the mode it was called
    in, the later ones in training mode, as [evaluate] left it. Starting
    in training mode, every batch is trained in training mode, the mode
    the one-step update [optim_step] stands for. *)
Theorem fit_final_state {Input Params : Type} forward loss_fn optim_step fold_number
    (lds : list (loader Input)) vld num_epochs (s s' : state Params) r
    (Hn : (1 <= num_epochs)%nat) (Hm : st_mode s = Training) :
  fit forward loss_fn optim_step fold_number lds vld num_epochs s = (s', Ok r) ->
  st_mode s' = Training /\ st_epoch s' = (num_epochs - 1)%nat
  /\ st_preds s' = empty_predictions
  /\ exists bss, lds = map (map Ok) bss
     /\ st_params s' = Nat.iter num_epochs
          (fold_left (fun w b => optim_step w (b_inputs b) (b_targets b)) (concat bss))
          (st_params s).
Proof.
  destruct num_epochs as [|k]; [lia|]. unfold fit. intros H.
  apply fit_epochs_end in H. replace (S k - 1)%nat with (0 + k)%nat by lia. exact H.
Qed.

Lemma train_epoch_empty {Input Params : Type} forward loss_fn optim_step
    (lds : list (loader Input)) (s : state Params) :
  Forall (fun ld => ld = []) lds ->
  train_epoch forward loss_fn optim_step lds s = (s, Ok tt).
Proof.
  induction 1 as [|ld lds -> _ IH]; [reflexivity|]. cbn [train_epoch]. exact IH.
Qed.

(** X10: when no training loader has a batch and the cache holds no
    training loss (an empty [train_loss] list, as after a reset, or no
    such key), [fit] raises in its first epoch, at the division of
    [evaluate] (ZeroDivisionError; KeyError without the key): the
    parameters are untouched and nothing is logged, switched or saved. *)
Theorem fit_without_training_batches {Input Params : Type} forward loss_fn optim_step
    fold_number (lds : list (loader Input)) vld num_epochs (s : state Params)
    (Hl : Forall (fun ld => ld = []) lds)
    (Hempty : default [] (st_preds s !! "train_loss"%string) = [])
    (Hn : (1 <= num_epochs)%nat) :
  snd (fit forward loss_fn optim_step fold_number lds vld num_epochs s)
    = Err (if st_preds s !! "train_loss"%string then ZeroDivisionError else KeyError)
  /\ st_trace (fst (fit forward loss_fn optim_step fold_number lds vld num_epochs s))
     = st_trace s
  /\ st_params (fst (fit forward loss_fn optim_step fold_number lds vld num_epochs s))
     = st_params s.
Proof.
  enough (H : exists s', fit forward loss_fn optim_step fold_number lds vld num_epochs s
            = (s', Err (if st_preds s !! "train_loss"%string then ZeroDivisionError
                        else KeyError))
          /\ st_trace s' = st_trace s /\ st_params s' = st_params s)
    by (destruct H as (s' & -> & Ht & Hp); split; [reflexivity|split; assumption]).
  destruct num_epochs as [|k]; [lia|]. unfold fit. cbn [fit_epochs].
  unfold bind at 1. cbv [set_epoch]. unfold bind at 1.
  rewrite train_epoch_empty by exact Hl.
  unfold evaluate, bind at 1. cbv [pop get bind].
  cbn [st_preds]. destruct (st_preds s !! "train_loss"%string) as [l|].
  - simpl in Hempty. subst l. cbv [set_preds ret raise lift mean].
    eexists; split; [reflexivity|split; reflexivity].
  - cbv [set_preds ret raise lift mean].
    eexists; split; [reflexivity|split; reflexivity].
Qed.

Lemma evaluate_error_drops_train_loss_witness :
  exists s' r,
    evaluate ex_forward [Ok ex_batch] None true (ex_state ex_trained_preds) = (s', r)
    /\ r = Err ZeroDivisionError
    /\ st_params s' = st_params (ex_state ex_trained_preds)
    /\ st_epoch s' = st_epoch (ex_state ex_trained_preds)
    /\ (forall e, r = Err e ->
          st_preds s' = delete "train_loss"%string (st_preds (ex_state ex_trained_preds))
          /\ forall ld' lossf' switch_to_eval',
               snd (evaluate ex_forward ld' lossf' switch_to_eval' s') = Err KeyError).
Proof.
  exists (fst (evaluate ex_forward [Ok ex_batch] None true (ex_state ex_trained_preds))),
         (snd (evaluate ex_forward [Ok ex_batch] None true (ex_state ex_trained_preds))).
  assert (H : evaluate ex_forward [Ok ex_batch] None true (ex_state ex_trained_preds)
              = (fst (evaluate ex_forward [Ok ex_batch] None true (ex_state ex_trained_preds)),
                 snd (evaluate ex_forward [Ok ex_batch] None true (ex_state ex_trained_preds))))
    by apply surjective_pairing.
  split; [exact H|]. split; [vm_compute; reflexivity|].
  exact (evaluate_error_drops_train_loss ex_forward [Ok ex_batch] None true _ _ _ H).
Defined.

Lemma evaluate_records_witness :
  exists s' d,
    evaluate ex_forward [Ok ex_batch] (Some ex_loss) true (ex_state ex_trained_preds) = (s', Ok d)
    /\ exists pre dt tl qt bs qv,
      st_trace s' = st_trace (ex_state ex_trained_preds) ++ pre
                    ++ [EvLog dt true; EvLog d false; EvResetCache]
      /\ dict_keys dt = ["train_loss"; "precision"; "recall"; "acc"; "auc"]%string
      /\ dict_keys d = ["val_precision"; "val_recall"; "val_acc"; "val_loss"; "val_auc"]%string
      /\ st_preds (ex_state ex_trained_preds) !! "train_loss"%string = Some tl /\ mean tl = Ok qt
      /\ dict_get dt "train_loss"%string = Some (Num qt)
      /\ [Ok ex_batch] = map Ok bs
      /\ mean (map (fun b => ex_loss (ex_forward (st_params (ex_state ex_trained_preds))
                                  (if true then Inference else st_mode (ex_state ex_trained_preds))
                                  (b_inputs b)) (b_targets b)) bs) = Ok qv
      /\ dict_get d "val_loss"%string = Some (Num qv).
Proof.
  exists (fst (evaluate ex_forward [Ok ex_batch] (Some ex_loss) true (ex_state ex_trained_preds))),
         (match snd (evaluate ex_forward [Ok ex_batch] (Some ex_loss) true
                       (ex_state ex_trained_preds)) with
          | Ok d => d | Err _ => [] end).
  assert (H : evaluate ex_forward [Ok ex_batch] (Some ex_loss) true (ex_state ex_trained_preds)
    = (fst (evaluate ex_forward [Ok ex_batch] (Some ex_loss) true (ex_state ex_trained_preds)),
       Ok (match snd (evaluate ex_forward [Ok ex_batch] (Some ex_loss) true
                        (ex_state ex_trained_preds)) with
           | Ok d => d | Err _ => [] end)))
    by (vm_compute; reflexivity).
  split; [exact H|].
  exact (evaluate_records ex_forward [Ok ex_batch] ex_loss true _ _ _ H).
Defined.

Lemma fit_final_state_witness :
  exists s' r,
    fit ex_forward ex_loss ex_step 0 [[Ok ex_batch]] [Ok ex_batch] 2 (ex_state empty_predictions)
      = (s', Ok r)
    /\ (1 <= 2)%nat /\ st_mode (ex_state empty_predictions) = Training
    /\ st_mode s' = Training /\ st_epoch s' = (2 - 1)%nat
    /\ st_preds s' = empty_predictions
    /\ exists bss, [[Ok ex_batch]] = map (map Ok) bss
       /\ st_params s' = Nat.iter 2
            (fold_left (fun w b => ex_step w (b_inputs b) (b_targets b)) (concat bss))
            (st_params (ex_state empty_predictions)).
Proof.
  exists (fst (fit ex_forward ex_loss ex_step 0 [[Ok ex_batch]] [Ok ex_batch] 2
                 (ex_state empty_predictions))), (Num (1#2)).
  assert (H : fit ex_forward ex_loss ex_step 0 [[Ok ex_batch]] [Ok ex_batch] 2
                (ex_state empty_predictions)
              = (fst (fit ex_forward ex_loss ex_step 0 [[Ok ex_batch]] [Ok ex_batch] 2
                        (ex_state empty_predictions)), Ok (Num (1#2))))
    by (vm_compute; reflexivity).
  split; [exact H|]. split; [lia|]. split; [reflexivity|].
  exact (fit_final_state ex_forward ex_loss ex_step 0 [[Ok ex_batch]] [Ok ex_batch] 2
           (ex_state empty_predictions) _ _ ltac:(lia) eq_refl H).
Defined.

Lemma fit_without_training_batches_witness :
  Forall (fun ld => ld = []) [@nil (res (batch (list Q)))]
  /\ default [] (st_preds (ex_state empty_predictions) !! "train_loss"%string) = []
  /\ (1 <= 1)%nat
  /\ snd (fit ex_forward ex_loss ex_step 0 [[]] [Ok ex_batch] 1 (ex_state empty_predictions))
     = Err (if st_preds (ex_state empty_predictions) !! "train_loss"%string
            then ZeroDivisionError else KeyError)
  /\ st_trace (fst (fit ex_forward ex_loss ex_step 0 [[]] [Ok ex_batch] 1
                      (ex_state empty_predictions)))
     = st_trace (ex_state empty_predictions)
  /\ st_params (fst (fit ex_forward ex_loss ex_step 0 [[]] [Ok ex_batch] 1
                       (ex_state empty_predictions)))
     = st_params (ex_state empty_predictions).
Proof.
  split; [repeat constructor|]. split; [vm_compute; reflexivity|]. split; [lia|].
  apply (fit_without_training_batches ex_forward ex_loss ex_step 0 [[]] [Ok ex_batch] 1
           (ex_state empty_predictions));
    [repeat constructor | vm_compute; reflexivity | lia].
Defined.
